(** * spotify_stream: the playlist store and the resolver's selection policy

    A shallow embedding of [playlist_service.py] (class [PlaylistService]) and
    of the pure parts of [youtube_service.py] (the formatting of results in
    [search_videos], format selection in [get_audio_stream_url]), with the
    properties of the specification stated and proved over it, and further
    properties of the same code: what each operation leaves alone, how the
    operations compose, and what the statistics and the searches return.

    Conventions of the embedding:
    - a Python [str] is a [string]; comparison of strings is the
      lexicographic one on characters, as Python's;
    - a Python [int] is a [Z] (arbitrary precision), a finite [float] a [Q];
    - the [self.playlists] dict is an association list in insertion order,
      which is the order [dict.values()] iterates in;
    - [datetime.now().isoformat()] and [uuid.uuid4()] are inputs of the
      operation that reads them; [save_playlists] writes the whole dict to a
      file and does not change the dict, so it does not appear;
    - a method that mutates the store returns the new store next to its
      Python result; [None] is [None]. *)

From Stdlib Require Import List String Ascii ZArith QArith Bool Lia.
From Stdlib Require Import Permutation Sorted DecimalString DecimalPos.
Import ListNotations.

Local Open Scope string_scope.
Local Open Scope Z_scope.

(** ** Python built-ins used by the services *)

(** [s.split(sep)] for a one-character separator: never empty, one more
    piece than there are separators. *)
Fixpoint split_on (sep : ascii) (s : string) : list string :=
  match s with
  | EmptyString => [EmptyString]
  | String c rest =>
      if Ascii.eqb c sep then EmptyString :: split_on sep rest
      else match split_on sep rest with
           | [] => [String c EmptyString]
           | piece :: pieces => String c piece :: pieces
           end
  end.

Definition colon : ascii := ":"%char.

(** [l[i]] on a list: a negative index counts from the end, anything outside
    [-len, len) raises IndexError ([None]). *)
Definition py_index {A : Type} (l : list A) (i : Z) : option A :=
  let n := Z.of_nat (List.length l) in
  if (0 <=? i) && (i <? n) then nth_error l (Z.to_nat i)
  else if (- n <=? i) && (i <? 0) then nth_error l (Z.to_nat (n + i))
  else None.

(** [[l[i] for i in idxs]]: the first IndexError aborts the comprehension. *)
Fixpoint py_index_all {A : Type} (l : list A) (idxs : list Z) : option (list A) :=
  match idxs with
  | [] => Some []
  | i :: rest =>
      match py_index l i with
      | None => None
      | Some x =>
          match py_index_all l rest with
          | None => None
          | Some xs => Some (x :: xs)
          end
      end
  end.

(** [l[:k]]: the first [k] items, and for a negative [k] all but the last
    [-k] items. *)
Definition py_slice_to {A : Type} (l : list A) (k : Z) : list A :=
  if 0 <=? k then firstn (Z.to_nat k) l
  else firstn (Z.to_nat (Z.of_nat (List.length l) + k)) l.

(** *** [int(s)] on ASCII text

    Surrounding white space is dropped, one sign is allowed, then decimal
    digits, where single underscores may separate digits. A [ValueError] is
    [None]. The interpreter's cap on the number of digits is left out. *)
Definition is_space (c : ascii) : bool :=
  let n := nat_of_ascii c in
  ((9 <=? n) && (n <=? 13) || (n =? 32))%nat.

Definition digit_of (c : ascii) : option Z :=
  let n := nat_of_ascii c in
  if ((48 <=? n) && (n <=? 57))%nat then Some (Z.of_nat n - 48) else None.

Fixpoint lstrip (s : list ascii) : list ascii :=
  match s with
  | c :: rest => if is_space c then lstrip rest else s
  | [] => []
  end.

Definition strip (s : list ascii) : list ascii :=
  rev (lstrip (rev (lstrip s))).

(** [after_digit] records that the previous character was a digit: only
    there may an underscore or the end of the literal stand. *)
Fixpoint digits_value (acc : Z) (after_digit : bool) (s : list ascii) : option Z :=
  match s with
  | [] => if after_digit then Some acc else None
  | c :: rest =>
      match digit_of c with
      | Some d => digits_value (acc * 10 + d) true rest
      | None =>
          if Ascii.eqb c "_"%char && after_digit
          then digits_value acc false rest
          else None
      end
  end.

Definition ascii_int (s : string) : option Z :=
  match strip (list_ascii_of_string s) with
  | c :: rest =>
      if Ascii.eqb c "-"%char then option_map Z.opp (digits_value 0 false rest)
      else if Ascii.eqb c "+"%char then digits_value 0 false rest
      else digits_value 0 false (c :: rest)
  | [] => None
  end.

(** [str(n)] for an [int]. *)
Definition py_str_of_int (n : Z) : string :=
  NilZero.string_of_int (Z.to_int n).

(** ** Data model of [playlist_service.py] *)

(** The dict received by [add_song_to_playlist] (an [AddSongRequest]). *)
Record song_request := {
  req_id : string;
  req_title : string;
  req_channel : string;
  req_duration : string;
  req_thumbnail : option string;
  req_url : string
}.

(** [song_data], the dict stored in a playlist's ["songs"] list. *)
Record song := {
  song_id : string;
  song_title : string;
  song_channel : string;
  song_duration : string;
  song_thumbnail : option string;
  song_url : string;
  song_added_at : string
}.

(** A playlist dict. [description] is whatever [create_playlist] was given:
    the request model declares it [Optional[str]], so it may be [None]. *)
Record playlist := {
  pl_id : string;
  pl_name : string;
  pl_description : option string;
  pl_created_at : string;
  pl_updated_at : string;
  pl_songs : list song;
  pl_total_duration : Z
}.

(** [self.playlists]: playlist id to playlist, in insertion order. *)
Definition store := list (string * playlist).

Fixpoint dict_get (d : store) (k : string) : option playlist :=
  match d with
  | [] => None
  | (k', v) :: rest => if String.eqb k' k then Some v else dict_get rest k
  end.

(** [d[k] = v]: an existing key keeps its place, a new one goes last. *)
Fixpoint dict_set (d : store) (k : string) (v : playlist) : store :=
  match d with
  | [] => [(k, v)]
  | (k', v') :: rest =>
      if String.eqb k' k then (k', v) :: rest else (k', v') :: dict_set rest k v
  end.

Definition dict_values (d : store) : list playlist := map snd d.

Definition with_songs (p : playlist) (songs : list song) (total : Z)
    (now : string) : playlist :=
  {| pl_id := pl_id p; pl_name := pl_name p; pl_description := pl_description p;
     pl_created_at := pl_created_at p; pl_updated_at := now;
     pl_songs := songs; pl_total_duration := total |}.

(** ** The operations of [PlaylistService] *)

Section PlaylistService.

(** Python's [int] on strings, [None] for a [ValueError]. The operations
    only call it; [ascii_int] above is what it computes on ASCII text. *)
Variable py_int : string -> option Z.

(** The body of the [try] block of [add_song_to_playlist] and of
    [remove_song_from_playlist]: [Some] of the seconds when the string splits
    in exactly two parts that [int] accepts, [None] when the length test
    fails or [int] raises (the bare [except] swallows it). *)
Definition duration_seconds (duration : string) : option Z :=
  match split_on colon duration with
  | [minutes; seconds] =>
      match py_int minutes with
      | None => None
      | Some m =>
          match py_int seconds with
          | None => None
          | Some s => Some (m * 60 + s)
          end
      end
  | _ => None
  end.

Definition create_playlist (st : store) (playlist_id name : string)
    (description : option string) (now_created now_updated : string)
    : store * playlist :=
  let p := {| pl_id := playlist_id; pl_name := name;
              pl_description := description;
              pl_created_at := now_created; pl_updated_at := now_updated;
              pl_songs := []; pl_total_duration := 0 |} in
  (dict_set st playlist_id p, p).

Definition get_playlist (st : store) (playlist_id : string) : option playlist :=
  dict_get st playlist_id.

Definition update_playlist (st : store) (playlist_id : string)
    (name description : option string) (now : string)
    : store * option playlist :=
  match dict_get st playlist_id with
  | None => (st, None)
  | Some p =>
      let p' := {| pl_id := pl_id p;
                   pl_name := match name with Some n => n | None => pl_name p end;
                   pl_description :=
                     match description with
                     | Some d => Some d
                     | None => pl_description p
                     end;
                   pl_created_at := pl_created_at p; pl_updated_at := now;
                   pl_songs := pl_songs p;
                   pl_total_duration := pl_total_duration p |} in
      (dict_set st playlist_id p', Some p')
  end.

Definition song_data_of (s : song_request) (now : string) : song :=
  {| song_id := req_id s; song_title := req_title s;
     song_channel := req_channel s; song_duration := req_duration s;
     song_thumbnail := req_thumbnail s; song_url := req_url s;
     song_added_at := now |}.

Definition has_song (songs : list song) (id : string) : bool :=
  existsb (fun existing => String.eqb (song_id existing) id) songs.

Definition add_song_to_playlist (st : store) (playlist_id : string)
    (s : song_request) (now_added now_updated : string)
    : store * option playlist :=
  match dict_get st playlist_id with
  | None => (st, None)
  | Some p =>
      if has_song (pl_songs p) (req_id s) then (st, Some p)
      else
        let total :=
          match duration_seconds (req_duration s) with
          | Some d => pl_total_duration p + d
          | None => pl_total_duration p
          end in
        let p' := with_songs p (pl_songs p ++ [song_data_of s now_added])
                    total now_updated in
        (dict_set st playlist_id p', Some p')
  end.

(** The [for i, song in enumerate(...)] loop with its [pop(i)]: the first
    song with the id, and the list without it. *)
Fixpoint pop_song (id : string) (songs : list song) : option (song * list song) :=
  match songs with
  | [] => None
  | x :: rest =>
      if String.eqb (song_id x) id then Some (x, rest)
      else match pop_song id rest with
           | None => None
           | Some (removed, rest') => Some (removed, x :: rest')
           end
  end.

Definition remove_song_from_playlist (st : store) (playlist_id song_id : string)
    (now : string) : store * option playlist :=
  match dict_get st playlist_id with
  | None => (st, None)
  | Some p =>
      match pop_song song_id (pl_songs p) with
      | None => (st, Some p)
      | Some (removed_song, rest) =>
          let total :=
            match duration_seconds (song_duration removed_song) with
            | Some d => Z.max 0 (pl_total_duration p - d)
            | None => pl_total_duration p
            end in
          let p' := with_songs p rest total now in
          (dict_set st playlist_id p', Some p')
      end
  end.

Definition reorder_playlist (st : store) (playlist_id : string)
    (song_indices : list Z) (now : string) : store * option playlist :=
  match dict_get st playlist_id with
  | None => (st, None)
  | Some p =>
      if negb (Nat.eqb (List.length song_indices) (List.length (pl_songs p)))
      then (st, None)
      else
        match py_index_all (pl_songs p) song_indices with
        | Some reordered_songs =>
            let p' := with_songs p reordered_songs (pl_total_duration p) now in
            (dict_set st playlist_id p', Some p')
        | None => (st, None)
        end
  end.

(** [list.sort(key=..., reverse=True)] on the [updated_at] strings: a stable
    sort, so playlists with equal keys keep their relative order. An item
    goes in front of the first one whose key is not greater than its own. *)
Fixpoint insert_desc (x : playlist) (l : list playlist) : list playlist :=
  match l with
  | [] => [x]
  | y :: rest =>
      if String.ltb (pl_updated_at x) (pl_updated_at y)
      then y :: insert_desc x rest
      else x :: l
  end.

Definition sort_desc (l : list playlist) : list playlist :=
  fold_right insert_desc [] l.

Definition get_recent_playlists (st : store) (limit : Z) : list playlist :=
  py_slice_to (sort_desc (dict_values st)) limit.

End PlaylistService.

(** ** The pure parts of [youtube_service.py] *)

(** A value found in a yt-dlp entry under ['view_count']: [PyNone] also
    stands for a missing key, since the code reads it with [.get]. *)
Inductive py_value :=
  | PyNone
  | PyInt (n : Z)
  | PyFloat (x : Q)
  | PyStr (s : string).

(** [isinstance(v, (int, float))], with the number it denotes. *)
Definition as_number (v : py_value) : option Q :=
  match v with
  | PyInt n => Some (inject_Z n)
  | PyFloat x => Some x
  | PyNone | PyStr _ => None
  end.

(** [int(x)] on a number: rounding towards zero. *)
Definition py_int_of_number (x : Q) : Z := Z.quot (Qnum x) (Zpos (Qden x)).

Definition Qge_bool (x y : Q) : bool := Qle_bool y x.
Definition Qgt_bool (x y : Q) : bool := negb (Qle_bool x y).

Section SearchVideos.

(** [f"{x:.1f}"] applied to a quotient [view_count / d]: the float division
    and the rounding to one decimal, as a function of the exact quotient. *)
Variable format_1f : Q -> string.

(** The ["# Format view count"] block of [search_videos]. *)
Definition format_views (view_count : py_value) : string :=
  match as_number view_count with
  | Some x =>
      if Qeq_bool x 0 then "N/A"
      else if Qge_bool x (inject_Z 1000000)
           then format_1f (x / inject_Z 1000000) ++ "M views"
      else if Qge_bool x (inject_Z 1000)
           then format_1f (x / inject_Z 1000) ++ "K views"
      else py_str_of_int (py_int_of_number x) ++ " views"
  | None => "N/A"
  end.

End SearchVideos.

(** One entry of [info['formats']]; every field is read with [.get], so
    [None] is a missing key or a [None] value. *)
Record format := {
  fmt_acodec : option string;
  fmt_vcodec : option string;
  fmt_abr : option Q;
  fmt_tbr : option Q;
  fmt_url : option string
}.



Inductive outcome (A : Type) :=
  | Returns (a : A)
  | Raises (message : string).
Arguments Returns {A} a.
Arguments Raises {A} message.


(** [x or 0] on an optional number. *)
Definition truthy_number (x : option Q) : option Q :=
  match x with
  | Some q => if Qeq_bool q 0 then None else Some q
  | None => None
  end.

(** [x.get('abr', 0) or x.get('tbr', 0) or 0] *)
Definition bitrate (f : format) : Q :=
  match truthy_number (fmt_abr f) with
  | Some abr => abr
  | None =>
      match truthy_number (fmt_tbr f) with
      | Some tbr => tbr
      | None => 0%Q
      end
  end.




(** [max(items, key=bitrate)] on a non-empty list: a later item replaces the
    current best only when its key is strictly greater. *)
Fixpoint max_from (best : format) (items : list format) : format :=
  match items with
  | [] => best
  | x :: rest =>
      if Qgt_bool (bitrate x) (bitrate best) then max_from x rest
      else max_from best rest
  end.







(** ** Runs of membership operations and the derived duration *)

Inductive playlist_op :=
  | AddSong (s : song_request) (now_added now_updated : string)
  | RemoveSong (id : string) (now : string).

Section Runs.

Variable py_int : string -> option Z.

Definition apply_op (st : store) (playlist_id : string) (op : playlist_op)
    : store :=
  match op with
  | AddSong s now_added now_updated =>
      fst (add_song_to_playlist py_int st playlist_id s now_added now_updated)
  | RemoveSong id now =>
      fst (remove_song_from_playlist py_int st playlist_id id now)
  end.

Definition run_ops (st : store) (playlist_id : string) (ops : list playlist_op)
    : store :=
  fold_left (fun st op => apply_op st playlist_id op) ops st.

(** What a duration string contributes: its seconds, nothing when it does
    not parse. *)
Definition parsed_seconds (duration : string) : Z :=
  match duration_seconds py_int duration with
  | Some d => d
  | None => 0
  end.

(** The sum that [total_duration] caches. *)
Definition songs_duration (songs : list song) : Z :=
  fold_right (fun s acc => parsed_seconds (song_duration s) + acc) 0 songs.

Definition duration_consistent (p : playlist) : Prop :=
  pl_total_duration p = songs_duration (pl_songs p).

(** "Exactly two colon-separated integer components": the string splits at
    its colons in two pieces, [int] accepts both, and [secs] is what they
    amount to. *)
Definition two_integer_parts (duration : string) (secs : Z) : Prop :=
  exists minutes seconds m s,
    split_on colon duration = [minutes; seconds]
    /\ py_int minutes = Some m /\ py_int seconds = Some s
    /\ secs = m * 60 + s.

Definition nonnegative_songs (songs : list song) : Prop :=
  Forall (fun s => 0 <= parsed_seconds (song_duration s)) songs.

Definition adds_nonnegative (op : playlist_op) : Prop :=
  match op with
  | AddSong s _ _ => 0 <= parsed_seconds (req_duration s)
  | RemoveSong _ _ => True
  end.

End Runs.

(** ** Recency order *)

(** [a] may stand before [b] in a list sorted by [updated_at], descending. *)
Definition not_older (a b : playlist) : Prop :=
  String.leb (pl_updated_at b) (pl_updated_at a) = true.

(** ** The rest of [PlaylistService] *)

(** [del d[k]] *)
Definition dict_del (d : store) (k : string) : store :=
  filter (fun kv => negb (String.eqb (fst kv) k)) d.

(** [k in d] *)
Definition dict_mem (d : store) (k : string) : bool :=
  match dict_get d k with
  | Some _ => true
  | None => false
  end.

(** A dict holds a key once. *)
Definition unique_keys (d : store) : Prop := NoDup (map fst d).

Definition get_all_playlists (st : store) : list playlist := dict_values st.

Definition delete_playlist (st : store) (playlist_id : string) : store * bool :=
  if dict_mem st playlist_id then (dict_del st playlist_id, true)
  else (st, false).

(** [f"{n:02d}"]: at least two characters, zeros in front; the sign of a
    negative number already makes two. *)
Definition format_02d (n : Z) : string :=
  let s := py_str_of_int n in
  if (String.length s <? 2)%nat then "0" ++ s else s.

Record playlist_stats := {
  total_playlists : nat;
  total_songs : nat;
  total_duration_seconds : Z;
  total_duration_formatted : string
}.

Definition get_playlist_stats (st : store) : playlist_stats :=
  let total_playlists := List.length st in
  let total_songs :=
    fold_right Nat.add 0%nat
      (map (fun p => List.length (pl_songs p)) (dict_values st)) in
  let total_duration :=
    fold_right Z.add 0 (map pl_total_duration (dict_values st)) in
  let hours := total_duration / 3600 in
  let minutes := (total_duration mod 3600) / 60 in
  let seconds := total_duration mod 60 in
  let duration_str :=
    format_02d hours ++ ":" ++ format_02d minutes ++ ":" ++ format_02d seconds in
  {| total_playlists := total_playlists;
     total_songs := total_songs;
     total_duration_seconds := total_duration;
     total_duration_formatted := duration_str |}.

(** [needle in hay] on strings. *)
Fixpoint contains (needle hay : string) : bool :=
  if String.prefix needle hay then true
  else match hay with
       | EmptyString => false
       | String _ rest => contains needle rest
       end.

(** [str.lower] on ASCII text: the letters A to Z move to a to z. *)
Definition ascii_lower_char (c : ascii) : ascii :=
  let n := nat_of_ascii c in
  if ((65 <=? n) && (n <=? 90))%nat then ascii_of_nat (n + 32) else c.

Fixpoint ascii_lower (s : string) : string :=
  match s with
  | EmptyString => EmptyString
  | String c rest => String (ascii_lower_char c) (ascii_lower rest)
  end.

Section SearchPlaylists.

(** Python's [str.lower]; [ascii_lower] is what it computes on ASCII text. *)
Variable py_lower : string -> string.

Definition none_has_no_lower : string :=
  "'NoneType' object has no attribute 'lower'".

(** The test of the loop for one playlist: [or] evaluates the description
    only when the name does not match, and [None.lower()] raises
    AttributeError. *)
Definition matches_query (query : string) (p : playlist) : outcome bool :=
  if contains query (py_lower (pl_name p)) then Returns true
  else match pl_description p with
       | Some description => Returns (contains query (py_lower description))
       | None => Raises none_has_no_lower
       end.

(** The loop over [self.playlists.values()]: the first exception ends it. *)
Fixpoint search_loop (query : string) (playlists results : list playlist)
    : outcome (list playlist) :=
  match playlists with
  | [] => Returns results
  | p :: rest =>
      match matches_query query p with
      | Raises message => Raises message
      | Returns true => search_loop query rest (results ++ [p])
      | Returns false => search_loop query rest results
      end
  end.

Definition search_playlists (st : store) (query : string)
    : outcome (list playlist) :=
  search_loop (py_lower query) (dict_values st) [].

(** What the test gives, split in two truth values: the playlist is kept,
    the test raises. *)
Definition keeps (query : string) (p : playlist) : bool :=
  match matches_query query p with
  | Returns b => b
  | Raises _ => false
  end.

Definition raises (query : string) (p : playlist) : bool :=
  match matches_query query p with
  | Returns _ => false
  | Raises _ => true
  end.

End SearchPlaylists.

(** [needle] is a substring of [hay]. *)
Definition occurs (needle hay : string) : Prop :=
  exists pre post, hay = pre ++ needle ++ post.

(** The stores [st] and [st'] have the same ids in the same order and agree
    on every id but [playlist_id]. *)
Definition same_elsewhere (st st' : store) (playlist_id : string) : Prop :=
  map fst st' = map fst st
  /\ forall k, k <> playlist_id -> dict_get st' k = dict_get st k.

(** ** The rest of [search_videos] *)

(** The ["# Format duration"] block: minutes and two-digit seconds of
    [int(duration)] for a number other than zero, else ["Live"] or
    ["N/A"]. *)
Definition format_duration (duration : py_value) (is_live : bool) : string :=
  let fallback := if is_live then "Live" else "N/A" in
  match as_number duration with
  | Some x =>
      if Qeq_bool x 0 then fallback
      else
        let minutes := py_int_of_number x / 60 in
        let seconds := py_int_of_number x mod 60 in
        py_str_of_int minutes ++ ":" ++ format_02d seconds
  | None => fallback
  end.

(** An item of [results['entries']], as far as [search_videos] reads it.
    Fields read with [.get(key)] are [None] for a missing key or a [None]
    value; fields read with [.get(key, default)] keep the two apart, the
    outer [None] being the missing key. [v_thumbnails] lists what
    [.get('url')] gives on each thumbnail, and is empty when there is no
    list. *)
Record video_entry := {
  v_id : option string;
  v_title : option (option string);
  v_uploader : option (option string);
  v_channel : option (option string);
  v_duration : py_value;
  v_is_live : bool;
  v_view_count : py_value;
  v_thumbnails : list (option string)
}.

Record search_result := {
  sr_id : string;
  sr_title : option string;
  sr_channel : option string;
  sr_duration : string;
  sr_views : string;
  sr_thumbnail : string;
  sr_url : string
}.

(** [d.get(key, default)] *)
Definition get_default (field : option (option string))
    (default : option string) : option string :=
  match field with
  | Some value => value
  | None => default
  end.

Definition default_thumbnail (id : string) : string :=
  "https://img.youtube.com/vi/" ++ id ++ "/maxresdefault.jpg".

Definition watch_url (id : string) : string :=
  "https://www.youtube.com/watch?v=" ++ id.

(** The ["# Get thumbnail URL"] block: the url of the last thumbnail when
    it is a non-empty string, else the default one. *)
Definition thumbnail_of (id : string) (thumbnails : list (option string))
    : string :=
  match last thumbnails None with
  | Some url => if String.eqb url "" then default_thumbnail id else url
  | None => default_thumbnail id
  end.

Section SearchResults.

Variable format_1f : Q -> string.

(** The body of the loop for one entry: nothing for a [None] entry or an
    entry without id. *)
Definition format_entry (video : option video_entry) : option search_result :=
  match video with
  | None => None
  | Some v =>
      match v_id v with
      | None => None
      | Some id =>
          if String.eqb id "" then None
          else Some
            {| sr_id := id;
               sr_title := get_default (v_title v) (Some "Unknown Title");
               sr_channel :=
                 get_default (v_uploader v)
                   (get_default (v_channel v) (Some "Unknown Channel"));
               sr_duration := format_duration (v_duration v) (v_is_live v);
               sr_views := format_views format_1f (v_view_count v);
               sr_thumbnail := thumbnail_of id (v_thumbnails v);
               sr_url := watch_url id |}
      end
  end.

Fixpoint formatted_results (entries : list (option video_entry))
    : list search_result :=
  match entries with
  | [] => []
  | video :: rest =>
      match format_entry video with
      | Some r => r :: formatted_results rest
      | None => formatted_results rest
      end
  end.

(** [search_videos] after the call to yt-dlp: [results] is [None] when the
    extraction failed or gave no ['entries']. *)
Definition search_videos (results : option (list (option video_entry)))
    (limit : Z) : list search_result :=
  match results with
  | Some entries => py_slice_to (formatted_results entries) limit
  | None => py_slice_to [] limit
  end.

End SearchResults.

(** The ids of the entries that have one, in the order of the entries. *)
Fixpoint usable_ids (entries : list (option video_entry)) : list string :=
  match entries with
  | [] => []
  | Some v :: rest =>
      match v_id v with
      | Some id => if String.eqb id "" then usable_ids rest
                   else id :: usable_ids rest
      | None => usable_ids rest
      end
  | None :: rest => usable_ids rest
  end.

(** A decimal digit. *)
Definition digit_char (c : ascii) : bool :=
  match digit_of c with
  | Some _ => true
  | None => false
  end.

(** What the text of two digits must satisfy: it reads back as the number
    it was made from, holds no colon, and is two characters long. *)
Definition two_digit_ok (n : Z) : bool :=
  match ascii_int (format_02d n) with
  | Some m => m =? n
  | None => false
  end
  && match split_on colon (format_02d n) with
     | [piece] => String.eqb piece (format_02d n)
     | _ => false
     end
  && Nat.eqb (String.length (format_02d n)) 2.

(** ** Sample data for the closed instances below *)

Definition playlist_a : playlist :=
  {| pl_id := "p1"; pl_name := "Road trip"; pl_description := Some "";
     pl_created_at := "2024-01-01T10:00:00";
     pl_updated_at := "2024-01-01T10:00:00";
     pl_songs := []; pl_total_duration := 0 |}.


Definition request (id duration : string) : song_request :=
  {| req_id := id; req_title := "title of " ++ id; req_channel := "channel";
     req_duration := duration; req_thumbnail := None;
     req_url := "https://www.youtube.com/watch?v=" ++ id |}.

Definition stored (id duration : string) : song :=
  song_data_of (request id duration) "2024-01-01T10:05:00".

Definition playlist_ab : playlist :=
  {| pl_id := "p1"; pl_name := "Road trip"; pl_description := Some "";
     pl_created_at := "2024-01-01T10:00:00";
     pl_updated_at := "2024-01-01T10:06:00";
     pl_songs := [stored "a" "3:45"; stored "b" "1:00"];
     pl_total_duration := 285 |}.

Definition fresh_store : store :=
  fst (create_playlist [] "p1" "Mix" (Some "")
         "2024-01-01T10:00:00" "2024-01-01T10:00:00.000007").

(** A run whose first song carries a negative minutes component. *)
Definition negative_run : list playlist_op :=
  [ AddSong (request "a" "-1:00") "2024-01-01T10:01:00" "2024-01-01T10:01:00";
    AddSong (request "b" "1:00") "2024-01-01T10:02:00" "2024-01-01T10:02:00";
    RemoveSong "b" "2024-01-01T10:03:00" ].

Definition updated (id now : string) : playlist :=
  {| pl_id := id; pl_name := "playlist " ++ id; pl_description := Some "";
     pl_created_at := "2024-01-01T10:00:00"; pl_updated_at := now;
     pl_songs := []; pl_total_duration := 0 |}.

Definition three_playlists : store :=
  [ ("p2", updated "p2" "2024-01-02T08:00:00");
    ("p3", updated "p3" "2024-01-03T08:00:00");
    ("p1", updated "p1" "2024-01-01T08:00:00") ].





Definition entry (id : option string) (duration : py_value) : video_entry :=
  {| v_id := id; v_title := Some (Some "A title"); v_uploader := None;
     v_channel := Some (Some "A channel"); v_duration := duration;
     v_is_live := false; v_view_count := PyInt 1234;
     v_thumbnails := [Some "https://i.ytimg.com/small.jpg"; Some ""] |}.

Definition sample_entries : list (option video_entry) :=
  [ Some (entry (Some "abc") (PyInt 225)); None;
    Some (entry None (PyInt 10)); Some (entry (Some "") PyNone);
    Some (entry (Some "xyz") PyNone) ].

Definition two_stores : store :=
  [ ("p1", with_songs playlist_a [stored "a" "1:30"] 90 "2024-01-01T10:00:00");
    ("p2", with_songs playlist_a [stored "b" "61:40"] 3700
             "2024-01-01T10:00:00") ].

Definition named (id name : string) (description : option string)
    : playlist :=
  {| pl_id := id; pl_name := name; pl_description := description;
     pl_created_at := "2024-01-01T10:00:00";
     pl_updated_at := "2024-01-01T10:00:00";
     pl_songs := []; pl_total_duration := 0 |}.

Definition named_playlists : store :=
  [ ("p1", named "p1" "Road Trip" (Some "songs for the car"));
    ("p2", named "p2" "Focus" (Some "quiet, no lyrics"));
    ("p3", named "p3" "Gym" (Some "LOUD trip-hop")) ].

(** The second playlist was created with a [null] description. *)
Definition playlists_with_none : store :=
  [ ("p1", named "p1" "Road Trip" (Some "songs for the car"));
    ("p2", named "p2" "Focus" None);
    ("p3", named "p3" "Gym" (Some "LOUD trip-hop")) ].

(** ** Creating several playlists *)

Record creation := {
  c_id : string;
  c_name : string;
  c_description : option string;
  c_now_created : string;
  c_now_updated : string
}.

Definition created (c : creation) : playlist :=
  {| pl_id := c_id c; pl_name := c_name c; pl_description := c_description c;
     pl_created_at := c_now_created c; pl_updated_at := c_now_updated c;
     pl_songs := []; pl_total_duration := 0 |}.

(** One call of [create_playlist] after the other. *)
Definition create_all (st : store) (calls : list creation) : store :=
  fold_left
    (fun st c => fst (create_playlist st (c_id c) (c_name c) (c_description c)
                        (c_now_created c) (c_now_updated c)))
    calls st.

(** An index Python accepts on a list of [n] items. *)
Definition index_in_range (n : nat) (i : Z) : Prop :=
  - Z.of_nat n <= i < Z.of_nat n.


Definition two_calls : list creation :=
  [ {| c_id := "p7"; c_name := "Late"; c_description := Some "";
       c_now_created := "2024-06-01T22:00:00";
       c_now_updated := "2024-06-01T22:00:00" |};
    {| c_id := "p8"; c_name := "Late"; c_description := None;
       c_now_created := "2024-06-01T22:05:00";
       c_now_updated := "2024-06-01T22:05:00" |} ].

Definition plain_run : list playlist_op :=
  [ AddSong (request "a" "3:45") "2024-01-01T10:01:00" "2024-01-01T10:01:00";
    AddSong (request "b" "Live") "2024-01-01T10:02:00" "2024-01-01T10:02:00";
    RemoveSong "a" "2024-01-01T10:03:00" ].

(** A playlist as [load_playlists] may read it: the aggregate is smaller
    than the duration of the song it holds. *)
Definition playlist_short : playlist :=
  {| pl_id := "p1"; pl_name := "Road trip"; pl_description := Some "";
     pl_created_at := "2024-01-01T10:00:00";
     pl_updated_at := "2024-01-01T10:06:00";
     pl_songs := [stored "b" "3:45"];
     pl_total_duration := 100 |}.

(** Two additions, the first with a negative minutes component. *)
Definition mixed_adds : list playlist_op :=
  [ AddSong (request "a" "-1:00") "2024-01-01T10:01:00" "2024-01-01T10:01:00";
    AddSong (request "b" "3:45") "2024-01-01T10:02:00" "2024-01-01T10:02:00" ].
(** ** Facts about the dict *)

Lemma dict_get_set_same (d : store) (k : string) (v : playlist) :
  dict_get (dict_set d k v) k = Some v.
Proof.
  induction d as [| [k' v'] d IH]; simpl.
  - now rewrite String.eqb_refl.
  - destruct (String.eqb k' k) eqn:E; simpl; rewrite E; auto.
Qed.

Lemma dict_get_set_other (d : store) (k k' : string) (v : playlist) :
  k' <> k -> dict_get (dict_set d k v) k' = dict_get d k'.
Proof.
  intros Hne.
  induction d as [| [k0 v0] d IH]; simpl.
  - destruct (String.eqb k k') eqn:E; auto.
    apply String.eqb_eq in E. congruence.
  - destruct (String.eqb k0 k) eqn:E; simpl.
    + apply String.eqb_eq in E. subst k0.
      destruct (String.eqb k k') eqn:E'; auto.
      apply String.eqb_eq in E'. congruence.
    + now rewrite IH.
Qed.

Lemma dict_set_keys (d : store) (k : string) (v : playlist) :
  dict_get d k <> None -> map fst (dict_set d k v) = map fst d.
Proof.
  induction d as [| [k0 v0] d IH]; simpl; intros H.
  - congruence.
  - destruct (String.eqb k0 k); simpl; auto.
    now rewrite IH.
Qed.

Lemma has_song_true (songs : list song) (id : string) :
  has_song songs id = true <-> exists e, In e songs /\ song_id e = id.
Proof.
  unfold has_song. rewrite existsb_exists.
  split; intros [e [Hin He]]; exists e; split; auto.
  - now apply String.eqb_eq.
  - now apply String.eqb_eq.
Qed.

Lemma has_song_false (songs : list song) (id : string) :
  has_song songs id = false <-> ~ In id (map song_id songs).
Proof.
  split.
  - intros H Hin. apply in_map_iff in Hin. destruct Hin as [e [He Hin]].
    assert (has_song songs id = true) by (apply has_song_true; eauto).
    congruence.
  - intros H. destruct (has_song songs id) eqn:E; auto.
    apply has_song_true in E. destruct E as [e [Hin He]].
    exfalso. apply H. apply in_map_iff. eauto.
Qed.

(** ** Creation and metadata update *)

(** C10, as the code has it: [create_playlist] produces a playlist for every
    name, the empty one included. The record carries the name and
    description given, the id and the two clock readings, no song and a zero
    duration, and is what the store then holds under the id. *)
Theorem create_playlist_always_succeeds
    (st : store) (playlist_id name : string) (description : option string)
    (now1 now2 : string) :
  let (st', p) := create_playlist st playlist_id name description now1 now2 in
  pl_id p = playlist_id /\ pl_name p = name /\
  pl_description p = description /\
  pl_created_at p = now1 /\ pl_updated_at p = now2 /\
  pl_songs p = [] /\ pl_total_duration p = 0 /\
  dict_get st' playlist_id = Some p.
Proof.
  unfold create_playlist; simpl.
  repeat split; auto.
  apply dict_get_set_same.
Qed.

(** C10, as the claim has it, fails: a call with the empty name is not
    rejected, it stores and returns a playlist whose name is empty. *)
Lemma create_playlist_accepts_empty_name :
  exists st' p,
    create_playlist [] "p1" "" (Some "")
      "2024-01-01T10:00:00" "2024-01-01T10:00:00"
      = (st', p)
    /\ pl_name p = "" /\ dict_get st' "p1" = Some p.
Proof.
  eexists; eexists. split; [reflexivity | split; reflexivity].
Qed.

(** C9: [update_playlist] on an existing playlist sets the fields supplied,
    keeps the ones left out, keeps id, creation time, songs and duration,
    and stamps [updated_at] with the current time whether or not a field was
    supplied. The store holds the result under the same id and is unchanged
    at every other id. *)
Theorem update_playlist_frame
    (st : store) (playlist_id : string) (p : playlist)
    (name description : option string) (now : string) :
  dict_get st playlist_id = Some p ->
  exists st' p',
    update_playlist st playlist_id name description now = (st', Some p')
    /\ pl_name p' = match name with Some n => n | None => pl_name p end
    /\ pl_description p' =
         match description with Some d => Some d | None => pl_description p end
    /\ pl_updated_at p' = now
    /\ pl_id p' = pl_id p /\ pl_created_at p' = pl_created_at p
    /\ pl_songs p' = pl_songs p
    /\ pl_total_duration p' = pl_total_duration p
    /\ dict_get st' playlist_id = Some p'
    /\ (forall k, k <> playlist_id -> dict_get st' k = dict_get st k).
Proof.
  intros Hget. unfold update_playlist. rewrite Hget.
  eexists; eexists. split; [reflexivity |].
  simpl. repeat split; auto.
  - apply dict_get_set_same.
  - intros k Hk. now apply dict_get_set_other.
Qed.

Lemma update_playlist_frame_witness :
  exists st' p',
    update_playlist [("p1", playlist_a)] "p1" None None "2024-02-02T08:00:00"
      = (st', Some p')
    /\ pl_name p' = "Road trip"
    /\ pl_description p' = Some ""
    /\ pl_updated_at p' = "2024-02-02T08:00:00"
    /\ pl_id p' = "p1" /\ pl_created_at p' = "2024-01-01T10:00:00"
    /\ pl_songs p' = []
    /\ pl_total_duration p' = 0
    /\ dict_get st' "p1" = Some p'
    /\ (forall k, k <> "p1" -> dict_get st' k = dict_get [("p1", playlist_a)] k).
Proof.
  apply (update_playlist_frame [("p1", playlist_a)] "p1" playlist_a None None
           "2024-02-02T08:00:00").
  reflexivity.
Defined.

(** ** Adding and removing songs *)

Lemma add_song_ids (py_int : string -> option Z) (st st' : store)
    (playlist_id : string) (p p' : playlist) (s : song_request)
    (now_added now_updated : string) :
  dict_get st playlist_id = Some p ->
  add_song_to_playlist py_int st playlist_id s now_added now_updated
    = (st', Some p') ->
  pl_songs p' = pl_songs p
  \/ (~ In (req_id s) (map song_id (pl_songs p))
      /\ pl_songs p' = (pl_songs p ++ [song_data_of s now_added])%list).
Proof.
  intros Hget Hadd. unfold add_song_to_playlist in Hadd. rewrite Hget in Hadd.
  destruct (has_song (pl_songs p) (req_id s)) eqn:Hdup.
  - left. congruence.
  - right. apply has_song_false in Hdup.
    inversion Hadd; subst. simpl. auto.
Qed.

(** C3: on an existing playlist, adding a song whose id is already the id of
    one of its songs returns that playlist and leaves the store as it was:
    songs, [total_duration] and [updated_at] are untouched and nothing is
    signalled. With it, no call of [add_song_to_playlist] makes two songs of
    a playlist share an id. *)
Theorem add_existing_song_is_noop
    (py_int : string -> option Z) (st : store) (playlist_id : string)
    (p : playlist) (s : song_request) (now_added now_updated : string) :
  dict_get st playlist_id = Some p ->
  ((exists existing, In existing (pl_songs p) /\ song_id existing = req_id s) ->
   add_song_to_playlist py_int st playlist_id s now_added now_updated
     = (st, Some p))
  /\ (NoDup (map song_id (pl_songs p)) ->
      forall st' p',
        add_song_to_playlist py_int st playlist_id s now_added now_updated
          = (st', Some p') ->
        NoDup (map song_id (pl_songs p'))).
Proof.
  intros Hget. split.
  - intros Hdup. apply has_song_true in Hdup.
    unfold add_song_to_playlist. now rewrite Hget, Hdup.
  - intros Hnodup st' p' Hadd.
    destruct (add_song_ids _ _ _ _ _ _ _ _ _ Hget Hadd) as [E | [Hfresh E]];
      rewrite E; auto.
    rewrite map_app. simpl.
    apply NoDup_rev in Hnodup.
    rewrite <- (rev_involutive (map song_id (pl_songs p) ++ [req_id s])).
    apply NoDup_rev. rewrite rev_app_distr. simpl.
    constructor; auto.
    now rewrite <- in_rev.
Qed.

Lemma add_existing_song_is_noop_witness :
  (add_song_to_playlist ascii_int [("p1", playlist_ab)] "p1"
     (request "a" "9:59") "2024-03-03T09:00:00" "2024-03-03T09:00:01"
   = ([("p1", playlist_ab)], Some playlist_ab))
  /\ (forall st' p',
        add_song_to_playlist ascii_int [("p1", playlist_ab)] "p1"
          (request "a" "9:59") "2024-03-03T09:00:00" "2024-03-03T09:00:01"
          = (st', Some p') ->
        NoDup (map song_id (pl_songs p'))).
Proof.
  destruct (add_existing_song_is_noop ascii_int [("p1", playlist_ab)] "p1"
              playlist_ab (request "a" "9:59")
              "2024-03-03T09:00:00" "2024-03-03T09:00:01" eq_refl)
    as [Hnoop Huniq].
  split.
  - apply Hnoop. exists (stored "a" "3:45"). split; [now left | reflexivity].
  - apply Huniq. simpl.
    constructor; [| constructor; [| constructor]]; simpl; intuition discriminate.
Defined.

Lemma duration_seconds_parts (py_int : string -> option Z) (d : string) (x : Z) :
  duration_seconds py_int d = Some x <-> two_integer_parts py_int d x.
Proof.
  unfold duration_seconds, two_integer_parts. split.
  - destruct (split_on colon d) as [| a [| b [| c l]]]; try discriminate.
    destruct (py_int a) as [m |] eqn:Ha; try discriminate.
    destruct (py_int b) as [s |] eqn:Hb; try discriminate.
    intros H. inversion H. exists a, b, m, s. auto.
  - intros [a [b [m [s [Hsplit [Ha [Hb Hx]]]]]]].
    rewrite Hsplit, Ha, Hb. now subst.
Qed.

Lemma duration_seconds_none (py_int : string -> option Z) (d : string) :
  duration_seconds py_int d = None <->
  (forall x, ~ two_integer_parts py_int d x).
Proof.
  split.
  - intros H x Hx. apply duration_seconds_parts in Hx. congruence.
  - intros H. destruct (duration_seconds py_int d) as [x |] eqn:E; auto.
    apply duration_seconds_parts in E. now apply H in E.
Qed.

Lemma two_integer_parts_unique (py_int : string -> option Z) (d : string)
    (x y : Z) :
  two_integer_parts py_int d x -> two_integer_parts py_int d y -> x = y.
Proof.
  intros Hx Hy.
  apply duration_seconds_parts in Hx. apply duration_seconds_parts in Hy.
  congruence.
Qed.

(** The song [pop_song] takes out is the first one with the id. *)
Lemma pop_song_first (id : string) (songs rest : list song) (removed : song) :
  pop_song id songs = Some (removed, rest) <->
  exists before after,
    songs = (before ++ removed :: after)%list
    /\ rest = (before ++ after)%list
    /\ song_id removed = id
    /\ ~ In id (map song_id before).
Proof.
  revert rest. induction songs as [| x songs IH]; intros rest; simpl.
  - split; [discriminate |].
    intros [before [after [H _]]]. destruct before; discriminate.
  - destruct (String.eqb (song_id x) id) eqn:E.
    + apply String.eqb_eq in E. split.
      * intros H. injection H as <- <-. exists [], songs. simpl. auto.
      * intros [before [after [Hs [Hr [Hid Hno]]]]].
        destruct before as [| y before]; simpl in *.
        -- inversion Hs; subst. reflexivity.
        -- inversion Hs; subst. exfalso. apply Hno. now left.
    + apply String.eqb_neq in E. split.
      * destruct (pop_song id songs) as [[r rest'] |] eqn:Hp; try discriminate.
        intros H. inversion H; subst.
        destruct (proj1 (IH rest') eq_refl)
          as [before [after [Hs [Hr [Hid Hno]]]]].
        exists (x :: before), after. simpl. subst.
        repeat split; auto. intros [H' | H']; auto.
      * intros [before [after [Hs [Hr [Hid Hno]]]]].
        destruct before as [| y before]; simpl in *.
        -- inversion Hs; subst. congruence.
        -- inversion Hs; subst.
           assert (Hp : pop_song (song_id removed) (before ++ removed :: after)
                        = Some (removed, (before ++ after)%list)).
           { apply IH. exists before, after. repeat split; auto. }
           now rewrite Hp.
Qed.

Lemma pop_song_none (id : string) (songs : list song) :
  pop_song id songs = None <-> ~ In id (map song_id songs).
Proof.
  induction songs as [| x songs IH]; simpl.
  - tauto.
  - destruct (String.eqb (song_id x) id) eqn:E.
    + apply String.eqb_eq in E. split; [discriminate | tauto].
    + apply String.eqb_neq in E.
      destruct (pop_song id songs) as [[r rest'] |].
      * split; [discriminate |]. intros H.
        exfalso. assert (Hno : ~ In id (map song_id songs)) by tauto.
        apply IH in Hno. discriminate.
      * split; auto. intros _ [H | H]; auto. now apply (proj1 IH).
Qed.

(** What the two membership operations return on an existing playlist. *)
Lemma add_song_result (py_int : string -> option Z) (st : store)
    (playlist_id : string) (p : playlist) (s : song_request)
    (now_added now_updated : string) :
  dict_get st playlist_id = Some p ->
  ~ In (req_id s) (map song_id (pl_songs p)) ->
  add_song_to_playlist py_int st playlist_id s now_added now_updated
  = let p' := with_songs p (pl_songs p ++ [song_data_of s now_added])
                (match duration_seconds py_int (req_duration s) with
                 | Some d => pl_total_duration p + d
                 | None => pl_total_duration p
                 end) now_updated in
    (dict_set st playlist_id p', Some p').
Proof.
  intros Hget Hfresh. apply has_song_false in Hfresh.
  unfold add_song_to_playlist. now rewrite Hget, Hfresh.
Qed.

Lemma remove_song_result (py_int : string -> option Z) (st : store)
    (playlist_id id : string) (p : playlist) (removed : song)
    (rest : list song) (now : string) :
  dict_get st playlist_id = Some p ->
  pop_song id (pl_songs p) = Some (removed, rest) ->
  remove_song_from_playlist py_int st playlist_id id now
  = let p' := with_songs p rest
                (match duration_seconds py_int (song_duration removed) with
                 | Some d => Z.max 0 (pl_total_duration p - d)
                 | None => pl_total_duration p
                 end) now in
    (dict_set st playlist_id p', Some p').
Proof.
  intros Hget Hpop. unfold remove_song_from_playlist. now rewrite Hget, Hpop.
Qed.

(** C5, with the floor that removal keeps: the duration policy of
    [add_song_to_playlist] and [remove_song_from_playlist] on an existing
    playlist. A duration of exactly two colon-separated integer components
    [m:s] counts for [m * 60 + s] seconds: adding a new song raises
    [total_duration] by them, removing a song lowers it by them, but not
    below zero. Any other string leaves [total_duration] as it is. In both
    cases the operation returns the playlist, which is the one the store
    then holds under the id: nothing is raised. With [int] on ASCII text,
    ["3:45"] counts for 225 seconds and ["1:02:03"], ["Live"] and ["N/A"]
    for none. *)
Theorem duration_parse_policy
    (py_int : string -> option Z) (st : store) (playlist_id : string)
    (p : playlist) :
  dict_get st playlist_id = Some p ->
  (forall s now_added now_updated,
      ~ In (req_id s) (map song_id (pl_songs p)) ->
      exists st' p',
        add_song_to_playlist py_int st playlist_id s now_added now_updated
          = (st', Some p')
        /\ dict_get st' playlist_id = Some p'
        /\ pl_songs p' = (pl_songs p ++ [song_data_of s now_added])%list
        /\ (forall secs, two_integer_parts py_int (req_duration s) secs ->
            pl_total_duration p' = pl_total_duration p + secs)
        /\ ((forall secs, ~ two_integer_parts py_int (req_duration s) secs) ->
            pl_total_duration p' = pl_total_duration p))
  /\ (forall id now before removed after,
      pl_songs p = (before ++ removed :: after)%list ->
      song_id removed = id ->
      ~ In id (map song_id before) ->
      exists st' p',
        remove_song_from_playlist py_int st playlist_id id now
          = (st', Some p')
        /\ dict_get st' playlist_id = Some p'
        /\ pl_songs p' = (before ++ after)%list
        /\ (forall secs, two_integer_parts py_int (song_duration removed) secs ->
            pl_total_duration p' = Z.max 0 (pl_total_duration p - secs))
        /\ ((forall secs, ~ two_integer_parts py_int (song_duration removed) secs) ->
            pl_total_duration p' = pl_total_duration p))
  /\ duration_seconds ascii_int "3:45" = Some 225
  /\ duration_seconds ascii_int "1:02:03" = None
  /\ duration_seconds ascii_int "Live" = None
  /\ duration_seconds ascii_int "N/A" = None.
Proof.
  intros Hget. split; [| split].
  - intros s now_added now_updated Hfresh.
    rewrite (add_song_result _ _ _ _ _ _ _ Hget Hfresh).
    eexists; eexists. split; [reflexivity |].
    split; [apply dict_get_set_same |]. simpl.
    split; [reflexivity |]. split.
    + intros secs Hsecs. apply duration_seconds_parts in Hsecs.
      now rewrite Hsecs.
    + intros Hnone. apply duration_seconds_none in Hnone. now rewrite Hnone.
  - intros id now before removed after Hsongs Hid Hfirst.
    assert (Hpop : pop_song id (pl_songs p)
                   = Some (removed, (before ++ after)%list)).
    { apply pop_song_first. exists before, after. auto. }
    rewrite (remove_song_result _ _ _ _ _ _ _ _ Hget Hpop).
    eexists; eexists. split; [reflexivity |].
    split; [apply dict_get_set_same |]. simpl.
    split; [reflexivity |]. split.
    + intros secs Hsecs. apply duration_seconds_parts in Hsecs.
      now rewrite Hsecs.
    + intros Hnone. apply duration_seconds_none in Hnone. now rewrite Hnone.
  - repeat split; reflexivity.
Qed.

Lemma duration_parse_policy_witness :
  exists st' p',
    add_song_to_playlist ascii_int [("p1", playlist_ab)] "p1"
      (request "c" "3:45") "2024-03-03T09:00:00" "2024-03-03T09:00:01"
      = (st', Some p')
    /\ dict_get st' "p1" = Some p'
    /\ pl_total_duration p' = 285 + 225.
Proof.
  destruct (duration_parse_policy ascii_int [("p1", playlist_ab)] "p1"
              playlist_ab eq_refl) as [Hadd _].
  destruct (Hadd (request "c" "3:45")
              "2024-03-03T09:00:00" "2024-03-03T09:00:01")
    as [st' [p' [E [Hstored [_ [Hparts _]]]]]].
  - simpl. intuition discriminate.
  - exists st', p'. split; [exact E |]. split; [exact Hstored |].
    apply Hparts. exists "3", "45", 3, 45. repeat split.
Defined.

(** C5 at a removal that meets the floor. [total_duration] is 100 and the
    song removed has duration ["3:45"], two integer components that count
    for 225 seconds: the claim asks for an adjustment by 225, and the code
    stores 0, the floor, instead of -125. The same happens on a playlist
    built through the operations alone: after adding ["-1:00"] and then
    ["3:45"] the total is 165, and removing the second song leaves 0, not
    165 - 225. *)
Lemma remove_song_stops_at_zero :
  two_integer_parts ascii_int "3:45" 225
  /\ (exists st' p',
        remove_song_from_playlist ascii_int [("p1", playlist_short)] "p1" "b"
          "2024-03-03T09:00:00" = (st', Some p')
        /\ dict_get st' "p1" = Some p'
        /\ pl_total_duration p' = 0
        /\ pl_total_duration p' <> pl_total_duration playlist_short - 225)
  /\ (exists p2 st3 p3,
        dict_get (run_ops ascii_int fresh_store "p1" mixed_adds) "p1" = Some p2
        /\ pl_total_duration p2 = 165
        /\ remove_song_from_playlist ascii_int
             (run_ops ascii_int fresh_store "p1" mixed_adds) "p1" "b"
             "2024-01-01T10:03:00" = (st3, Some p3)
        /\ dict_get st3 "p1" = Some p3
        /\ pl_total_duration p3 = 0
        /\ pl_total_duration p3 <> pl_total_duration p2 - 225).
Proof.
  split; [| split].
  - exists "3", "45", 3, 45. repeat split.
  - eexists; eexists. split; [reflexivity |].
    repeat split. discriminate.
  - eexists; eexists; eexists. split; [reflexivity |].
    split; [reflexivity |]. split; [reflexivity |].
    repeat split. discriminate.
Qed.

(** ** The cached duration along a run *)

Section DurationInvariant.

Variable py_int : string -> option Z.

Let consistent := duration_consistent py_int.
Let nonnegative := nonnegative_songs py_int.

Lemma songs_duration_app (l1 l2 : list song) :
  songs_duration py_int (l1 ++ l2)
  = songs_duration py_int l1 + songs_duration py_int l2.
Proof.
  induction l1 as [| x l1 IH]; simpl; [reflexivity | rewrite IH; lia].
Qed.

Lemma songs_duration_nonneg (songs : list song) :
  nonnegative songs -> 0 <= songs_duration py_int songs.
Proof.
  induction 1; simpl; lia.
Qed.

(** One operation keeps the cache equal to the sum, as long as no song of
    the playlist and no song added counts for a negative number of seconds. *)
Lemma apply_op_consistent (st : store) (playlist_id : string) (p : playlist)
    (op : playlist_op) :
  dict_get st playlist_id = Some p ->
  consistent p -> nonnegative (pl_songs p) -> adds_nonnegative py_int op ->
  exists p',
    dict_get (apply_op py_int st playlist_id op) playlist_id = Some p'
    /\ consistent p' /\ nonnegative (pl_songs p').
Proof.
  unfold consistent, nonnegative, duration_consistent, nonnegative_songs.
  intros Hget Hc Hn Hop. destruct op as [s now_added now_updated | id now]; simpl.
  - unfold add_song_to_playlist. rewrite Hget.
    destruct (has_song (pl_songs p) (req_id s)); simpl.
    + exists p. auto.
    + rewrite dict_get_set_same. eexists. split; [reflexivity |]. simpl.
      simpl in Hop. unfold parsed_seconds in Hop. split.
      * rewrite songs_duration_app. simpl. unfold parsed_seconds.
        destruct (duration_seconds py_int (req_duration s)); lia.
      * apply Forall_app. split; auto.
  - unfold remove_song_from_playlist. rewrite Hget.
    destruct (pop_song id (pl_songs p)) as [[removed rest] |] eqn:Hpop; simpl.
    + apply pop_song_first in Hpop.
      destruct Hpop as [before [after [Hs [Hr [_ _]]]]].
      rewrite Hs in Hc, Hn. rewrite songs_duration_app in Hc. simpl in Hc.
      apply Forall_app in Hn. destruct Hn as [Hb Ha].
      inversion Ha as [| x l Hx Ha']; subst x l.
      assert (Hrest : nonnegative (before ++ after))
        by (apply Forall_app; auto).
      rewrite dict_get_set_same. eexists. split; [reflexivity |]. simpl.
      subst rest. split; auto.
      pose proof (songs_duration_nonneg _ Hrest) as Hsum.
      rewrite songs_duration_app in *.
      unfold parsed_seconds in Hc, Hx.
      destruct (duration_seconds py_int (song_duration removed)); lia.
    + exists p. auto.
Qed.

(** Along a run from a consistent playlist the cache stays equal to the sum
    and never negative, under the same proviso. Every prefix of such a run is
    such a run, so this holds after each operation. *)
Lemma run_ops_consistent (ops : list playlist_op) (st : store)
    (playlist_id : string) (p : playlist) :
  dict_get st playlist_id = Some p ->
  consistent p -> nonnegative (pl_songs p) ->
  Forall (adds_nonnegative py_int) ops ->
  exists p',
    dict_get (run_ops py_int st playlist_id ops) playlist_id = Some p'
    /\ consistent p' /\ 0 <= pl_total_duration p'.
Proof.
  revert st p. induction ops as [| op ops IH]; intros st p Hget Hc Hn Hops.
  - exists p. repeat split; auto.
    rewrite Hc. now apply songs_duration_nonneg.
  - inversion Hops as [| o l Hop Hops']; subst o l.
    destruct (apply_op_consistent st playlist_id p op Hget Hc Hn Hop)
      as [p1 [Hget1 [Hc1 Hn1]]].
    simpl. exact (IH _ _ Hget1 Hc1 Hn1 Hops').
Qed.

End DurationInvariant.

(** C1 at a run with a negative component: after [create], adding song [a]
    with duration ["-1:00"], adding song [b] with ["1:00"] and removing [b],
    the playlist holds song [a] alone, whose duration parses to -60
    seconds, while [total_duration] is 0. The cache and the sum differ. *)
Theorem total_duration_drifts_after_negative_add :
  exists p,
    dict_get (run_ops ascii_int fresh_store "p1" negative_run) "p1" = Some p
    /\ map song_id (pl_songs p) = ["a"]
    /\ songs_duration ascii_int (pl_songs p) = -60
    /\ pl_total_duration p = 0
    /\ ~ duration_consistent ascii_int p.
Proof.
  eexists. split; [reflexivity |].
  repeat split. unfold duration_consistent. simpl. discriminate.
Qed.

(** C4 at an addition with a negative component: on a playlist just
    created, adding a song with duration ["-1:00"] leaves [total_duration]
    at -60. *)
Theorem total_duration_negative_after_add :
  exists st' p',
    add_song_to_playlist ascii_int fresh_store "p1" (request "a" "-1:00")
      "2024-01-01T10:01:00" "2024-01-01T10:01:00" = (st', Some p')
    /\ dict_get st' "p1" = Some p'
    /\ pl_total_duration p' = -60
    /\ pl_total_duration p' < 0.
Proof.
  eexists; eexists. split; [reflexivity |].
  repeat split.
Qed.

(** The removal path clamps: when the song taken out has a duration
    that parses, the result is never negative. *)
Lemma remove_song_clamps (py_int : string -> option Z) (st st' : store)
    (playlist_id id now : string) (p p' : playlist) (removed : song)
    (rest : list song) (secs : Z) :
  dict_get st playlist_id = Some p ->
  pop_song id (pl_songs p) = Some (removed, rest) ->
  duration_seconds py_int (song_duration removed) = Some secs ->
  remove_song_from_playlist py_int st playlist_id id now = (st', Some p') ->
  0 <= pl_total_duration p'.
Proof.
  intros Hget Hpop Hsecs Hrem.
  rewrite (remove_song_result _ _ _ _ _ _ _ _ Hget Hpop) in Hrem.
  simpl in Hrem. inversion Hrem; subst. simpl. rewrite Hsecs. lia.
Qed.

(** ** Reordering *)

Lemma py_index_in_range {A : Type} (l : list A) (i : Z) :
  0 <= i < Z.of_nat (List.length l) ->
  py_index l i = nth_error l (Z.to_nat i).
Proof.
  intros H. unfold py_index.
  destruct (Z.leb_spec 0 i); try lia.
  destruct (Z.ltb_spec i (Z.of_nat (List.length l))); try lia.
  reflexivity.
Qed.

Lemma py_index_outside {A : Type} (l : list A) (i : Z) :
  Z.of_nat (List.length l) <= i \/ i < - Z.of_nat (List.length l) ->
  py_index l i = None.
Proof.
  intros H. unfold py_index.
  destruct (Z.leb_spec 0 i); destruct (Z.ltb_spec i (Z.of_nat (List.length l)));
    destruct (Z.leb_spec (- Z.of_nat (List.length l)) i);
    destruct (Z.ltb_spec i 0); simpl; try reflexivity; lia.
Qed.

Lemma py_index_all_outside {A : Type} (l : list A) (idxs : list Z) (i : Z) :
  In i idxs ->
  Z.of_nat (List.length l) <= i \/ i < - Z.of_nat (List.length l) ->
  py_index_all l idxs = None.
Proof.
  intros Hin Hout. induction idxs as [| j idxs IH]; simpl in *; [tauto |].
  destruct Hin as [-> | Hin].
  - now rewrite py_index_outside.
  - rewrite (IH Hin). now destruct (py_index l j).
Qed.

Lemma py_index_all_in_range {A : Type} (l : list A) (idxs : list Z) :
  Forall (fun i => 0 <= i < Z.of_nat (List.length l)) idxs ->
  exists xs,
    py_index_all l idxs = Some xs
    /\ map Some xs = map (fun i => nth_error l (Z.to_nat i)) idxs.
Proof.
  induction 1 as [| i idxs Hi _ [xs [E Hxs]]]; simpl.
  - exists []. auto.
  - rewrite (py_index_in_range _ _ Hi), E.
    destruct (nth_error l (Z.to_nat i)) as [x |] eqn:Hx.
    + exists (x :: xs). simpl. now rewrite Hxs.
    + apply nth_error_None in Hx. lia.
Qed.

Lemma nth_error_seq {A : Type} (l : list A) :
  map (fun i => nth_error l (Z.to_nat i))
      (map Z.of_nat (seq 0 (List.length l)))
  = map Some l.
Proof.
  rewrite map_map.
  assert (H : forall (pre : list A),
             map (fun i => nth_error (pre ++ l) (Z.to_nat (Z.of_nat i)))
                 (seq (List.length pre) (List.length l)) = map Some l).
  { induction l as [| x l IH]; intros pre; simpl; [reflexivity |].
    rewrite Nat2Z.id, nth_error_app2, Nat.sub_diag by lia. simpl. f_equal.
    specialize (IH (pre ++ [x])%list).
    rewrite <- app_assoc, length_app in IH. simpl in IH.
    now rewrite Nat.add_1_r in IH. }
  exact (H []).
Qed.

(** Given a permutation of [0, n) on a playlist
    of [n] songs, [reorder_playlist] returns the playlist with the song at
    position [k] being the old song at position [song_indices[k]]; the songs
    are the same ones, rearranged, and only [updated_at] changes besides. *)
Lemma reorder_playlist_permutation
    (st : store) (playlist_id : string) (p : playlist)
    (song_indices : list Z) (now : string) :
  dict_get st playlist_id = Some p ->
  Permutation song_indices (map Z.of_nat (seq 0 (List.length (pl_songs p)))) ->
  exists reordered,
    reorder_playlist st playlist_id song_indices now
      = (dict_set st playlist_id
           (with_songs p reordered (pl_total_duration p) now),
         Some (with_songs p reordered (pl_total_duration p) now))
    /\ map Some reordered
       = map (fun i => nth_error (pl_songs p) (Z.to_nat i)) song_indices
    /\ Permutation reordered (pl_songs p).
Proof.
  intros Hget Hperm. unfold reorder_playlist. rewrite Hget.
  assert (Hlen : List.length song_indices = List.length (pl_songs p)).
  { rewrite (Permutation_length Hperm), length_map, length_seq. reflexivity. }
  rewrite Hlen, Nat.eqb_refl. simpl.
  assert (Hrange : Forall (fun i => 0 <= i < Z.of_nat (List.length (pl_songs p)))
                     song_indices).
  { apply Forall_forall. intros i Hi.
    apply (Permutation_in _ Hperm) in Hi. apply in_map_iff in Hi.
    destruct Hi as [k [<- Hk]]. apply in_seq in Hk. lia. }
  destruct (py_index_all_in_range _ _ Hrange) as [xs [E Hxs]].
  rewrite E. exists xs. repeat split; auto.
  assert (Hp : Permutation (map Some xs) (map Some (pl_songs p))).
  { rewrite Hxs, <- nth_error_seq. now apply Permutation_map. }
  apply Permutation_sym, Permutation_map_inv in Hp.
  destruct Hp as [l3 [Hl3 Hp]].
  assert (Heq : forall (a b : list song), map Some a = map Some b -> a = b).
  { induction a as [| x a IH]; destruct b as [| y b]; simpl;
      try discriminate; auto.
    intros H. inversion H. f_equal. auto. }
  apply Heq in Hl3. subst l3. now apply Permutation_sym.
Qed.

(** A wrong length or an index outside [-n, n) is refused without any
    change to the store. *)
Lemma reorder_playlist_refused
    (st : store) (playlist_id : string) (p : playlist)
    (song_indices : list Z) (now : string) :
  dict_get st playlist_id = Some p ->
  List.length song_indices <> List.length (pl_songs p)
  \/ (exists i, In i song_indices
                /\ (Z.of_nat (List.length (pl_songs p)) <= i
                    \/ i < - Z.of_nat (List.length (pl_songs p)))) ->
  reorder_playlist st playlist_id song_indices now = (st, None).
Proof.
  intros Hget H. unfold reorder_playlist. rewrite Hget.
  destruct (Nat.eqb_spec (List.length song_indices) (List.length (pl_songs p)))
    as [Hlen | Hlen]; simpl; [| reflexivity].
  destruct H as [H | [i [Hin Hout]]]; [contradiction |].
  now rewrite (py_index_all_outside _ _ _ Hin Hout).
Qed.

(** C2 at a duplicate index: on the playlist with songs [a; b], the index
    list [0; 0], which has the right length and is no permutation, is
    accepted. The call returns the playlist with song [a] twice and song [b]
    gone, a new [updated_at], and the store holds that playlist. The index
    list [-1; 0], with an index outside [0, 2), is accepted as well. *)
Theorem reorder_playlist_accepts_duplicate_index :
  exists st' p',
    reorder_playlist [("p1", playlist_ab)] "p1" [0; 0] "2024-05-05T12:00:00"
      = (st', Some p')
    /\ map song_id (pl_songs p') = ["a"; "a"]
    /\ pl_updated_at p' = "2024-05-05T12:00:00"
    /\ dict_get st' "p1" = Some p'
    /\ p' <> playlist_ab
    /\ exists st'' p'',
         reorder_playlist [("p1", playlist_ab)] "p1" [-1; 0]
           "2024-05-05T12:00:00" = (st'', Some p'')
         /\ map song_id (pl_songs p'') = ["b"; "a"].
Proof.
  eexists; eexists. split; [reflexivity |].
  repeat split; try discriminate.
  eexists; eexists. split; reflexivity.
Qed.

(** ** Recently updated playlists *)

Lemma string_compare_refl (a : string) : String.compare a a = Eq.
Proof.
  induction a as [| c a IH]; simpl; auto.
  unfold Ascii.compare. now rewrite N.compare_refl.
Qed.

Lemma string_compare_lt_trans (a b c : string) :
  String.compare a b = Lt -> String.compare b c = Lt ->
  String.compare a c = Lt.
Proof.
  revert b c. induction a as [| x a IH]; intros [| y b] [| z c]; simpl;
    try discriminate; auto.
  destruct (Ascii.compare x y) eqn:Exy; try discriminate;
    destruct (Ascii.compare y z) eqn:Eyz; try discriminate; intros Hab Hbc.
  - apply Ascii.compare_eq_iff in Exy, Eyz. subst.
    unfold Ascii.compare. rewrite N.compare_refl. eauto.
  - apply Ascii.compare_eq_iff in Exy. subst. now rewrite Eyz.
  - apply Ascii.compare_eq_iff in Eyz. subst. now rewrite Exy.
  - unfold Ascii.compare in *. rewrite N.compare_lt_iff in *.
    assert (H : (N_of_ascii x < N_of_ascii z)%N) by lia.
    apply N.compare_lt_iff in H. now rewrite H.
Qed.

Lemma string_ltb_trans (a b c : string) :
  String.ltb a b = true -> String.ltb b c = true -> String.ltb a c = true.
Proof.
  unfold String.ltb. intros Hab Hbc.
  destruct (String.compare a b) eqn:E1; try discriminate.
  destruct (String.compare b c) eqn:E2; try discriminate.
  now rewrite (string_compare_lt_trans _ _ _ E1 E2).
Qed.

Lemma string_ltb_asym (a b : string) :
  String.ltb a b = true -> String.ltb b a = false.
Proof.
  unfold String.ltb. rewrite (String.compare_antisym b a).
  destruct (String.compare a b); simpl; auto; discriminate.
Qed.

Lemma string_leb_ltb (a b : string) :
  String.leb a b = negb (String.ltb b a).
Proof.
  unfold String.leb, String.ltb. rewrite (String.compare_antisym b a).
  now destruct (String.compare a b).
Qed.

Lemma string_leb_trans (a b c : string) :
  String.leb a b = true -> String.leb b c = true -> String.leb a c = true.
Proof.
  intros Hab Hbc.
  destruct (String.leb a c) eqn:Hac; auto.
  rewrite string_leb_ltb in Hac. apply negb_false_iff in Hac.
  (* c < a <= b, hence c < b *)
  assert (Hcb : String.ltb c b = true).
  { unfold String.leb in Hab. destruct (String.compare a b) eqn:E;
      try discriminate.
    - apply String.compare_eq_iff in E. now subst.
    - apply (string_ltb_trans c a b); auto.
      unfold String.ltb. now rewrite E. }
  rewrite string_leb_ltb, Hcb in Hbc. discriminate.
Qed.

Lemma insert_desc_perm (x : playlist) (l : list playlist) :
  Permutation (insert_desc x l) (x :: l).
Proof.
  induction l as [| y l IH]; simpl; auto.
  destruct (String.ltb (pl_updated_at x) (pl_updated_at y)); auto.
  rewrite IH. apply perm_swap.
Qed.

Lemma sort_desc_perm (l : list playlist) : Permutation (sort_desc l) l.
Proof.
  induction l as [| x l IH]; simpl; auto.
  rewrite insert_desc_perm. now constructor.
Qed.

Lemma insert_desc_sorted (x : playlist) (l : list playlist) :
  StronglySorted not_older l -> StronglySorted not_older (insert_desc x l).
Proof.
  induction 1 as [| y l Hs IH Hy]; simpl.
  - repeat constructor.
  - destruct (String.ltb (pl_updated_at x) (pl_updated_at y)) eqn:E.
    + constructor; auto.
      apply Forall_forall. intros z Hz.
      apply (Permutation_in _ (insert_desc_perm x l)) in Hz.
      destruct Hz as [<- | Hz].
      * unfold not_older. rewrite string_leb_ltb.
        now rewrite (string_ltb_asym _ _ E).
      * rewrite Forall_forall in Hy. auto.
    + assert (Hyx : not_older x y).
      { unfold not_older. now rewrite string_leb_ltb, E. }
      constructor; [now constructor |].
      constructor; auto.
      apply Forall_forall. intros z Hz. rewrite Forall_forall in Hy.
      unfold not_older in *.
      apply (string_leb_trans _ (pl_updated_at y)); auto.
Qed.

Lemma sort_desc_sorted (l : list playlist) :
  StronglySorted not_older (sort_desc l).
Proof.
  induction l as [| x l IH]; simpl.
  - constructor.
  - now apply insert_desc_sorted.
Qed.

(** A list that is already in descending order comes back as it is: the
    sort moves no playlist past one with the same [updated_at]. *)
Lemma sort_desc_stable (l : list playlist) :
  StronglySorted not_older l -> sort_desc l = l.
Proof.
  induction 1 as [| x l Hs IH Hx]; simpl; auto.
  rewrite IH. destruct l as [| y l]; simpl; auto.
  inversion Hx as [| y' l' Hy _]; subst.
  unfold not_older in Hy. rewrite string_leb_ltb in Hy.
  apply negb_true_iff in Hy. now rewrite Hy.
Qed.

Lemma permutation_of_three {A : Type} (a b c : A) (l : list A) :
  Permutation [a; b; c] l ->
  l = [a; b; c] \/ l = [a; c; b] \/ l = [b; a; c]
  \/ l = [b; c; a] \/ l = [c; a; b] \/ l = [c; b; a].
Proof.
  intros H. pose proof (Permutation_length H) as Hlen.
  destruct l as [| x [| y [| z [| w l]]]]; try discriminate Hlen.
  assert (Hx : In x [a; b; c])
    by (apply (Permutation_in _ (Permutation_sym H)); now left).
  simpl in Hx. destruct Hx as [<- | [<- | [<- | []]]].
  - apply Permutation_cons_inv, Permutation_length_2_inv in H.
    destruct H as [H | H]; inversion H; subst; tauto.
  - assert (H' : Permutation (b :: [a; c]) (b :: [y; z]))
      by (rewrite <- H; apply perm_swap).
    apply Permutation_cons_inv, Permutation_length_2_inv in H'.
    destruct H' as [H' | H']; inversion H'; subst; tauto.
  - assert (H' : Permutation (c :: [a; b]) (c :: [y; z])).
    { rewrite <- H. apply (Permutation_cons_app [a; b] [] c).
      now rewrite app_nil_r. }
    apply Permutation_cons_inv, Permutation_length_2_inv in H'.
    destruct H' as [H' | H']; inversion H'; subst; tauto.
Qed.

Lemma recent_two_of_three (st : store) (p1 p2 p3 : playlist) :
  Permutation [p1; p2; p3] (dict_values st) ->
  String.ltb (pl_updated_at p1) (pl_updated_at p2) = true ->
  String.ltb (pl_updated_at p2) (pl_updated_at p3) = true ->
  get_recent_playlists st 2 = [p3; p2].
Proof.
  intros Hperm H12 H23.
  pose proof (string_ltb_trans _ _ _ H12 H23) as H13.
  pose proof (string_ltb_asym _ _ H12) as H21.
  pose proof (string_ltb_asym _ _ H23) as H32.
  pose proof (string_ltb_asym _ _ H13) as H31.
  unfold get_recent_playlists.
  destruct (permutation_of_three _ _ _ _ Hperm)
    as [E | [E | [E | [E | [E | E]]]]];
    rewrite E; cbn;
    rewrite ?H12, ?H23, ?H13, ?H21, ?H32, ?H31; cbn;
    rewrite ?H12, ?H23, ?H13, ?H21, ?H32, ?H31; reflexivity.
Qed.

(** C7, for a limit that is not negative: [get_recent_playlists] returns the
    first [limit] entries of a list that holds all the playlists of the
    store, ordered by [updated_at] from the latest to the earliest. On three
    playlists updated at [t1 < t2 < t3], whatever their order in the store,
    a limit of 2 gives the one updated at [t3], then the one updated at
    [t2]. *)
Theorem recent_playlists_sorted_truncated (st : store) (limit : Z) :
  0 <= limit ->
  (exists sorted,
      Permutation sorted (dict_values st)
      /\ StronglySorted not_older sorted
      /\ get_recent_playlists st limit = firstn (Z.to_nat limit) sorted)
  /\ (forall p1 p2 p3,
        Permutation [p1; p2; p3] (dict_values st) ->
        String.ltb (pl_updated_at p1) (pl_updated_at p2) = true ->
        String.ltb (pl_updated_at p2) (pl_updated_at p3) = true ->
        get_recent_playlists st 2 = [p3; p2]).
Proof.
  intros Hlimit. split.
  - exists (sort_desc (dict_values st)).
    split; [apply sort_desc_perm | split; [apply sort_desc_sorted |]].
    unfold get_recent_playlists, py_slice_to.
    destruct (Z.leb_spec 0 limit); [reflexivity | lia].
  - intros p1 p2 p3. apply recent_two_of_three.
Qed.

Lemma recent_playlists_sorted_truncated_witness :
  get_recent_playlists three_playlists 2
  = [updated "p3" "2024-01-03T08:00:00"; updated "p2" "2024-01-02T08:00:00"].
Proof.
  destruct (recent_playlists_sorted_truncated three_playlists 2) as [_ H];
    [lia |].
  apply (H (updated "p1" "2024-01-01T08:00:00")); [| reflexivity | reflexivity].
  unfold three_playlists, dict_values. simpl.
  apply (Permutation_cons_app [_; _] [] _). simpl. apply Permutation_refl.
Defined.

(** C7 at a negative limit: with three playlists in the store and the limit
    -1, the slice drops the last entry of the sorted list and two playlists
    come back, more than the limit allows. *)
Lemma recent_playlists_negative_limit :
  get_recent_playlists three_playlists (-1)
  = [updated "p3" "2024-01-03T08:00:00"; updated "p2" "2024-01-02T08:00:00"]
  /\ ~ (Z.of_nat (List.length (get_recent_playlists three_playlists (-1)))
        <= Z.max 0 (-1)).
Proof.
  split; [reflexivity |].
  intros H. vm_compute in H. now apply H.
Qed.

(** ** View counts *)

Lemma Qge_bool_iff (x y : Q) : Qge_bool x y = true <-> (y <= x)%Q.
Proof. apply Qle_bool_iff. Qed.

Lemma Qge_bool_false (x y : Q) : Qge_bool x y = false <-> (x < y)%Q.
Proof.
  unfold Qge_bool. split; intros H.
  - apply Qnot_le_lt. intros Hle. apply Qle_bool_iff in Hle. congruence.
  - destruct (Qle_bool y x) eqn:E; auto.
    apply Qle_bool_iff in E. exfalso. now apply (Qlt_not_le x y).
Qed.

Section ViewCount.

Variable format_1f : Q -> string.

Lemma format_views_number (v : py_value) (x : Q) :
  as_number v = Some x -> ~ (x == 0)%Q ->
  format_views format_1f v
  = if Qge_bool x (inject_Z 1000000)
    then format_1f (x / inject_Z 1000000) ++ "M views"
    else if Qge_bool x (inject_Z 1000)
         then format_1f (x / inject_Z 1000) ++ "K views"
         else py_str_of_int (py_int_of_number x) ++ " views".
Proof.
  intros Hx Hnz. unfold format_views. rewrite Hx.
  destruct (Qeq_bool x 0) eqn:E; auto.
  apply Qeq_bool_iff in E. contradiction.
Qed.

End ViewCount.

(** C8, with the zero count where the code puts it: for a count that is a
    number, at least 1,000,000 gives the one-decimal rendering of
    [count / 1000000] followed by ["M views"]; at least 1,000 (and less than
    1,000,000) gives that of [count / 1000] followed by ["K views"]; any
    other count except zero gives [int(count)] followed by [" views"]. A
    count of zero, a missing count and a count that is not a number give
    ["N/A"]. *)
Theorem format_views_cases (format_1f : Q -> string) (v : py_value) :
  (forall x, as_number v = Some x ->
     ((inject_Z 1000000 <= x)%Q ->
      format_views format_1f v
      = format_1f (x / inject_Z 1000000)%Q ++ "M views")
     /\ ((inject_Z 1000 <= x)%Q -> (x < inject_Z 1000000)%Q ->
         format_views format_1f v
         = format_1f (x / inject_Z 1000)%Q ++ "K views")
     /\ ((x < inject_Z 1000)%Q -> ~ (x == 0)%Q ->
         format_views format_1f v
         = py_str_of_int (py_int_of_number x) ++ " views")
     /\ ((x == 0)%Q -> format_views format_1f v = "N/A"))
  /\ (as_number v = None -> format_views format_1f v = "N/A")
  /\ format_views format_1f (PyInt 999) = "999 views"
  /\ format_views format_1f (PyInt 0) = "N/A"
  /\ format_views format_1f PyNone = "N/A"
  /\ format_views format_1f (PyStr "many") = "N/A".
Proof.
  split; [| split; [| repeat split]].
  - intros x Hx. repeat split.
    + intros Hm.
      assert (Hnz : ~ (x == 0)%Q).
      { intros E. rewrite E in Hm. now apply Qle_bool_iff in Hm. }
      rewrite (format_views_number _ _ _ Hx Hnz).
      apply Qge_bool_iff in Hm. now rewrite Hm.
    + intros Hk Hm.
      assert (Hnz : ~ (x == 0)%Q).
      { intros E. rewrite E in Hk. now apply Qle_bool_iff in Hk. }
      rewrite (format_views_number _ _ _ Hx Hnz).
      apply Qge_bool_false in Hm. apply Qge_bool_iff in Hk.
      now rewrite Hm, Hk.
    + intros Hk Hnz.
      rewrite (format_views_number _ _ _ Hx Hnz).
      assert (Hm : (x < inject_Z 1000000)%Q).
      { apply (Qlt_trans _ _ _ Hk). reflexivity. }
      apply Qge_bool_false in Hm, Hk. now rewrite Hm, Hk.
    + intros E. unfold format_views. rewrite Hx.
      apply Qeq_bool_iff in E. now rewrite E.
  - intros Hnone. unfold format_views. now rewrite Hnone.
Qed.

Lemma format_views_cases_witness :
  format_views (fun _ => "2.5") (PyInt 2500000) = "2.5M views".
Proof.
  destruct (format_views_cases (fun _ => "2.5") (PyInt 2500000)) as [H _].
  destruct (H (inject_Z 2500000) eq_refl) as [Hm _].
  apply Hm. discriminate.
Defined.

(** C8 at a count of zero: zero is a number below 1,000, so the claim asks
    for ["0 views"], and the code gives ["N/A"]. *)
Lemma format_views_zero_count :
  as_number (PyInt 0) = Some (inject_Z 0)
  /\ py_str_of_int (py_int_of_number (inject_Z 0)) ++ " views" = "0 views"
  /\ (forall format_1f, format_views format_1f (PyInt 0) = "N/A")
  /\ "N/A" <> "0 views".
Proof.
  repeat split. discriminate.
Qed.

(** ** Choice of the audio format *)


Lemma Qgt_bool_false (x y : Q) : Qgt_bool x y = false <-> (x <= y)%Q.
Proof.
  unfold Qgt_bool. rewrite negb_false_iff. apply Qle_bool_iff.
Qed.


(** Among items of the greatest bitrate, the earliest one is returned. *)
Lemma max_from_keeps_best (items : list format) (best : format) :
  (forall g, In g items -> (bitrate g <= bitrate best)%Q) ->
  max_from best items = best.
Proof.
  induction items as [| x items IH]; intros H; simpl; auto.
  assert (E : Qgt_bool (bitrate x) (bitrate best) = false)
    by (apply Qgt_bool_false, H; now left).
  rewrite E. apply IH. intros g Hg. apply H. now right.
Qed.






(** ** Deleting, and what an operation leaves alone *)

Lemma dict_get_del_same (d : store) (k : string) :
  dict_get (dict_del d k) k = None.
Proof.
  induction d as [| [k0 v0] d IH]; simpl; auto.
  destruct (String.eqb k0 k) eqn:E; simpl; auto.
  now rewrite E.
Qed.

Lemma dict_get_del_other (d : store) (k k' : string) :
  k' <> k -> dict_get (dict_del d k) k' = dict_get d k'.
Proof.
  intros Hne. induction d as [| [k0 v0] d IH]; simpl; auto.
  destruct (String.eqb k0 k) eqn:E; simpl.
  - apply String.eqb_eq in E. subst k0.
    destruct (String.eqb_spec k k'); [congruence | exact IH].
  - now rewrite IH.
Qed.

Lemma dict_get_not_in (d : store) (k : string) :
  dict_get d k = None <-> ~ In k (map fst d).
Proof.
  induction d as [| [k0 v0] d IH]; simpl.
  - tauto.
  - destruct (String.eqb_spec k0 k).
    + split; [discriminate | tauto].
    + rewrite IH. tauto.
Qed.

Lemma dict_del_absent (d : store) (k : string) :
  ~ In k (map fst d) -> dict_del d k = d.
Proof.
  induction d as [| [k0 v0] d IH]; simpl; auto.
  intros H. destruct (String.eqb_spec k0 k); simpl.
  - tauto.
  - rewrite IH; tauto.
Qed.

Lemma dict_del_length (d : store) (k : string) :
  unique_keys d -> In k (map fst d) ->
  S (List.length (dict_del d k)) = List.length d.
Proof.
  unfold unique_keys.
  induction d as [| [k0 v0] d IH]; simpl; [tauto |].
  intros Hnd Hin. inversion Hnd as [| x l Hx Hnd']; subst.
  destruct (String.eqb_spec k0 k); simpl.
  - subst k0. now rewrite dict_del_absent.
  - rewrite IH; auto. tauto.
Qed.

Lemma dict_del_keys (d : store) (k : string) :
  map fst (dict_del d k)
  = filter (fun k' => negb (String.eqb k' k)) (map fst d).
Proof.
  induction d as [| [k0 v0] d IH]; simpl; auto.
  destruct (String.eqb k0 k); simpl; now rewrite IH.
Qed.

Lemma dict_set_new_key (d : store) (k : string) (v : playlist) :
  dict_get d k = None -> dict_set d k v = (d ++ [(k, v)])%list.
Proof.
  induction d as [| [k0 v0] d IH]; simpl; auto.
  destruct (String.eqb k0 k); [discriminate |].
  intros H. now rewrite IH.
Qed.

(** Deleting a playlist: the call answers [True] exactly when the id was in
    the store; afterwards the id is not there, every other id maps to what
    it did, and a second deletion answers [False] and changes nothing. When
    the call answers [False] the store is the one given, and when it answers
    [True] on a store that holds each id once, the store has one entry
    less. *)
Theorem delete_playlist_removes (st : store) (playlist_id : string) :
  let st' := fst (delete_playlist st playlist_id) in
  let deleted := snd (delete_playlist st playlist_id) in
  (deleted = true <-> exists p, dict_get st playlist_id = Some p)
  /\ dict_get st' playlist_id = None
  /\ (forall k, k <> playlist_id -> dict_get st' k = dict_get st k)
  /\ (deleted = false -> st' = st)
  /\ delete_playlist st' playlist_id = (st', false)
  /\ (unique_keys st -> deleted = true ->
      S (List.length (get_all_playlists st'))
      = List.length (get_all_playlists st))
  /\ (unique_keys st -> unique_keys st').
Proof.
  unfold delete_playlist, dict_mem.
  destruct (dict_get st playlist_id) as [p |] eqn:Hget; simpl.
  - split; [split; eauto |].
    split; [apply dict_get_del_same |].
    split; [intros k Hk; now apply dict_get_del_other |].
    split; [discriminate |].
    split; [now rewrite dict_get_del_same |].
    split.
    + intros Hu _. unfold get_all_playlists, dict_values.
      rewrite !length_map. apply dict_del_length; auto.
      destruct (in_dec string_dec playlist_id (map fst st)) as [H | H]; auto.
      apply dict_get_not_in in H. congruence.
    + unfold unique_keys. rewrite dict_del_keys. apply NoDup_filter.
  - split; [split; [discriminate | intros [p H]; discriminate] |].
    rewrite Hget. repeat split; auto.
    intros _ H. discriminate.
Qed.

Lemma same_elsewhere_refl (st : store) (playlist_id : string) :
  same_elsewhere st st playlist_id.
Proof. split; auto. Qed.

Lemma same_elsewhere_set (st : store) (playlist_id : string) (p p' : playlist) :
  dict_get st playlist_id = Some p ->
  same_elsewhere st (dict_set st playlist_id p') playlist_id.
Proof.
  intros Hget. split.
  - apply dict_set_keys. congruence.
  - intros k Hk. now apply dict_get_set_other.
Qed.

(** An operation on one playlist leaves the rest of the store alone:
    [update_playlist], [add_song_to_playlist], [remove_song_from_playlist]
    and [reorder_playlist], whatever they are given and whether they succeed
    or not, keep the ids of the store and their order, and keep what every
    other id maps to. *)
Theorem operations_touch_one_playlist
    (py_int : string -> option Z) (st : store) (playlist_id : string) :
  (forall name description now,
      same_elsewhere st
        (fst (update_playlist st playlist_id name description now))
        playlist_id)
  /\ (forall s now_added now_updated,
        same_elsewhere st
          (fst (add_song_to_playlist py_int st playlist_id s
                  now_added now_updated))
          playlist_id)
  /\ (forall id now,
        same_elsewhere st
          (fst (remove_song_from_playlist py_int st playlist_id id now))
          playlist_id)
  /\ (forall song_indices now,
        same_elsewhere st
          (fst (reorder_playlist st playlist_id song_indices now))
          playlist_id).
Proof.
  assert (Hset : forall p p', dict_get st playlist_id = Some p ->
            same_elsewhere st (dict_set st playlist_id p') playlist_id)
    by (intros p p'; apply same_elsewhere_set).
  pose proof (same_elsewhere_refl st playlist_id) as Hrefl.
  split; [| split; [| split]].
  - intros name description now. unfold update_playlist.
    destruct (dict_get st playlist_id) as [p |] eqn:Hget; simpl; eauto.
  - intros s now_added now_updated. unfold add_song_to_playlist.
    destruct (dict_get st playlist_id) as [p |] eqn:Hget; simpl; auto.
    destruct (has_song (pl_songs p) (req_id s)); simpl; eauto.
  - intros id now. unfold remove_song_from_playlist.
    destruct (dict_get st playlist_id) as [p |] eqn:Hget; simpl; auto.
    destruct (pop_song id (pl_songs p)) as [[removed rest] |]; simpl; eauto.
  - intros song_indices now. unfold reorder_playlist.
    destruct (dict_get st playlist_id) as [p |] eqn:Hget; simpl; auto.
    destruct (negb (Nat.eqb (List.length song_indices)
                      (List.length (pl_songs p)))); simpl; auto.
    destruct (py_index_all (pl_songs p) song_indices); simpl; eauto.
Qed.

(** Creating a playlist under an id the store does not hold puts it last in
    [get_all_playlists], makes the store one playlist longer, and changes no
    other id; a store that holds each id once still does. *)
Theorem create_playlist_appends
    (st : store) (playlist_id name : string) (description : option string)
    (now1 now2 : string) :
  dict_get st playlist_id = None ->
  let st' := fst (create_playlist st playlist_id name description now1 now2) in
  let p := snd (create_playlist st playlist_id name description now1 now2) in
  get_all_playlists st' = (get_all_playlists st ++ [p])%list
  /\ List.length (get_all_playlists st')
     = S (List.length (get_all_playlists st))
  /\ (forall k, k <> playlist_id -> dict_get st' k = dict_get st k)
  /\ (unique_keys st -> unique_keys st').
Proof.
  intros Hnew. simpl. unfold get_all_playlists, dict_values.
  rewrite (dict_set_new_key _ _ _ Hnew), map_app. simpl.
  split; [reflexivity |].
  split; [rewrite length_app; simpl; lia |].
  split.
  - intros k Hk. rewrite <- (dict_set_new_key _ _ _ Hnew).
    now apply dict_get_set_other.
  - unfold unique_keys. rewrite map_app. simpl. intros Hu.
    apply dict_get_not_in in Hnew.
    apply NoDup_rev in Hu.
    rewrite <- (rev_involutive (map fst st ++ [playlist_id])).
    apply NoDup_rev. rewrite rev_app_distr. simpl.
    constructor; auto. now rewrite <- in_rev.
Qed.

Lemma create_playlist_appends_witness :
  get_all_playlists
    (fst (create_playlist [("p1", playlist_a)] "p2" "Evening" (Some "calm")
            "2024-04-04T20:00:00" "2024-04-04T20:00:00"))
  = [ playlist_a;
      snd (create_playlist [("p1", playlist_a)] "p2" "Evening" (Some "calm")
             "2024-04-04T20:00:00" "2024-04-04T20:00:00") ].
Proof.
  apply (create_playlist_appends [("p1", playlist_a)] "p2" "Evening" (Some "calm")
           "2024-04-04T20:00:00" "2024-04-04T20:00:00").
  reflexivity.
Defined.

(** ** How the membership operations compose *)

Lemma NoDup_snoc {A : Type} (l : list A) (x : A) :
  NoDup l -> ~ In x l -> NoDup (l ++ [x]).
Proof.
  intros Hl Hx. apply NoDup_rev in Hl.
  rewrite <- (rev_involutive (l ++ [x])). apply NoDup_rev.
  rewrite rev_app_distr. simpl. constructor; auto. now rewrite <- in_rev.
Qed.

Lemma dict_set_set (d : store) (k : string) (v v' : playlist) :
  dict_set (dict_set d k v) k v' = dict_set d k v'.
Proof.
  induction d as [| [k0 v0] d IH]; simpl.
  - now rewrite String.eqb_refl.
  - destruct (String.eqb k0 k) eqn:E; simpl; rewrite E; auto.
    now rewrite IH.
Qed.

Lemma pop_song_appended (songs : list song) (x : song) :
  ~ In (song_id x) (map song_id songs) ->
  pop_song (song_id x) (songs ++ [x]) = Some (x, songs).
Proof.
  intros H. apply pop_song_first. exists songs, [].
  rewrite app_nil_r. auto.
Qed.

Lemma pop_song_unique (id : string) (songs rest : list song) (removed : song) :
  NoDup (map song_id songs) ->
  pop_song id songs = Some (removed, rest) ->
  NoDup (map song_id rest) /\ ~ In id (map song_id rest).
Proof.
  intros Hnd Hpop. apply pop_song_first in Hpop.
  destruct Hpop as [before [after [Hs [Hr [Hid _]]]]]. subst songs rest id.
  rewrite map_app in *. simpl in Hnd.
  split.
  - now apply NoDup_remove_1 in Hnd.
  - now apply NoDup_remove_2 in Hnd.
Qed.

(** Adding a song that is not in the playlist and then removing it brings
    the songs and [total_duration] back to what they were, provided
    [total_duration] was not negative; only [updated_at] tells the playlist
    from the one before, and the rest of the store is untouched. This holds
    whatever the song's duration string is. *)
Theorem add_then_remove_restores
    (py_int : string -> option Z) (st : store) (playlist_id : string)
    (p : playlist) (s : song_request) (now_added now_updated now : string) :
  dict_get st playlist_id = Some p ->
  ~ In (req_id s) (map song_id (pl_songs p)) ->
  0 <= pl_total_duration p ->
  exists st1 p1,
    add_song_to_playlist py_int st playlist_id s now_added now_updated
      = (st1, Some p1)
    /\ remove_song_from_playlist py_int st1 playlist_id (req_id s) now
       = (dict_set st playlist_id
            (with_songs p (pl_songs p) (pl_total_duration p) now),
          Some (with_songs p (pl_songs p) (pl_total_duration p) now)).
Proof.
  intros Hget Hfresh Htotal.
  rewrite (add_song_result _ _ _ _ _ _ _ Hget Hfresh).
  eexists; eexists. split; [reflexivity |].
  set (total1 := match duration_seconds py_int (req_duration s) with
                 | Some d => pl_total_duration p + d
                 | None => pl_total_duration p
                 end).
  set (p1 := with_songs p (pl_songs p ++ [song_data_of s now_added])
               total1 now_updated).
  assert (Hget1 : dict_get (dict_set st playlist_id p1) playlist_id = Some p1)
    by apply dict_get_set_same.
  assert (Hpop : pop_song (req_id s) (pl_songs p1)
                 = Some (song_data_of s now_added, pl_songs p)).
  { apply (pop_song_appended (pl_songs p) (song_data_of s now_added)).
    exact Hfresh. }
  rewrite (remove_song_result _ _ _ _ _ _ _ _ Hget1 Hpop).
  simpl. rewrite dict_set_set.
  assert (Htot : match duration_seconds py_int (req_duration s) with
                 | Some d => Z.max 0 (total1 - d)
                 | None => total1
                 end = pl_total_duration p).
  { unfold total1.
    destruct (duration_seconds py_int (req_duration s)); lia. }
  rewrite Htot. reflexivity.
Qed.

Lemma add_then_remove_restores_witness :
  exists st1 p1,
    add_song_to_playlist ascii_int [("p1", playlist_ab)] "p1"
      (request "c" "-2:30") "2024-03-03T09:00:00" "2024-03-03T09:00:01"
      = (st1, Some p1)
    /\ remove_song_from_playlist ascii_int st1 "p1" "c" "2024-03-03T09:30:00"
       = ([("p1", with_songs playlist_ab (pl_songs playlist_ab) 285
                    "2024-03-03T09:30:00")],
          Some (with_songs playlist_ab (pl_songs playlist_ab) 285
                  "2024-03-03T09:30:00")).
Proof.
  apply (add_then_remove_restores ascii_int [("p1", playlist_ab)] "p1"
           playlist_ab (request "c" "-2:30")).
  - reflexivity.
  - simpl. intuition discriminate.
  - simpl. lia.
Defined.

(** Removing is idempotent on a playlist without duplicate song ids: a
    second removal of the same id answers what the first one answered and
    leaves the store the first one produced. After a removal the id is not
    in the playlist. *)
Theorem remove_song_idempotent
    (py_int : string -> option Z) (st : store) (playlist_id id : string)
    (p : playlist) (now now' : string) :
  dict_get st playlist_id = Some p ->
  NoDup (map song_id (pl_songs p)) ->
  exists st1 p1,
    remove_song_from_playlist py_int st playlist_id id now = (st1, Some p1)
    /\ ~ In id (map song_id (pl_songs p1))
    /\ remove_song_from_playlist py_int st1 playlist_id id now'
       = (st1, Some p1).
Proof.
  intros Hget Hnd. unfold remove_song_from_playlist at 1. rewrite Hget.
  destruct (pop_song id (pl_songs p)) as [[removed rest] |] eqn:Hpop.
  - destruct (pop_song_unique _ _ _ _ Hnd Hpop) as [_ Hgone].
    eexists; eexists. split; [reflexivity |]. simpl. split; auto.
    unfold remove_song_from_playlist. rewrite dict_get_set_same. simpl.
    apply pop_song_none in Hgone. now rewrite Hgone.
  - exists st, p. split; [reflexivity |].
    split; [now apply pop_song_none |].
    unfold remove_song_from_playlist. now rewrite Hget, Hpop.
Qed.

Lemma remove_song_idempotent_witness :
  exists st1 p1,
    remove_song_from_playlist ascii_int [("p1", playlist_ab)] "p1" "a"
      "2024-03-03T09:00:00" = (st1, Some p1)
    /\ ~ In "a" (map song_id (pl_songs p1))
    /\ remove_song_from_playlist ascii_int st1 "p1" "a" "2024-03-03T09:10:00"
       = (st1, Some p1).
Proof.
  apply (remove_song_idempotent ascii_int [("p1", playlist_ab)] "p1" "a"
           playlist_ab).
  - reflexivity.
  - simpl. constructor; [| constructor; [| constructor]];
      simpl; intuition discriminate.
Defined.

Lemma apply_op_keeps_identity (py_int : string -> option Z) (st : store)
    (playlist_id : string) (p : playlist) (op : playlist_op) :
  dict_get st playlist_id = Some p ->
  exists p',
    dict_get (apply_op py_int st playlist_id op) playlist_id = Some p'
    /\ pl_id p' = pl_id p /\ pl_name p' = pl_name p
    /\ pl_description p' = pl_description p
    /\ pl_created_at p' = pl_created_at p
    /\ (NoDup (map song_id (pl_songs p)) -> NoDup (map song_id (pl_songs p'))).
Proof.
  intros Hget. destruct op as [s now_added now_updated | id now]; simpl.
  - unfold add_song_to_playlist. rewrite Hget.
    destruct (has_song (pl_songs p) (req_id s)) eqn:Hdup; simpl.
    + exists p. auto 10.
    + rewrite dict_get_set_same. eexists. split; [reflexivity |]. simpl.
      repeat split. intros Hnd. rewrite map_app. simpl.
      apply NoDup_snoc; auto. now apply has_song_false.
  - unfold remove_song_from_playlist. rewrite Hget.
    destruct (pop_song id (pl_songs p)) as [[removed rest] |] eqn:Hpop; simpl.
    + rewrite dict_get_set_same. eexists. split; [reflexivity |]. simpl.
      repeat split. intros Hnd.
      now destruct (pop_song_unique _ _ _ _ Hnd Hpop).
    + exists p. auto 10.
Qed.

(** Along any run of additions and removals on a playlist of the store, the
    playlist stays in the store with the id, name, description and creation
    time it had, and if its songs had pairwise distinct ids at the start
    they have at the end. *)
Theorem run_ops_keeps_identity
    (py_int : string -> option Z) (ops : list playlist_op) (st : store)
    (playlist_id : string) (p : playlist) :
  dict_get st playlist_id = Some p ->
  exists p',
    dict_get (run_ops py_int st playlist_id ops) playlist_id = Some p'
    /\ pl_id p' = pl_id p /\ pl_name p' = pl_name p
    /\ pl_description p' = pl_description p
    /\ pl_created_at p' = pl_created_at p
    /\ (NoDup (map song_id (pl_songs p)) -> NoDup (map song_id (pl_songs p'))).
Proof.
  revert st p. induction ops as [| op ops IH]; intros st p Hget; simpl.
  - exists p. auto 10.
  - destruct (apply_op_keeps_identity py_int st playlist_id p op Hget)
      as [p1 [Hget1 [Hid [Hname [Hdesc [Hcreated Hnd]]]]]].
    destruct (IH _ _ Hget1) as [p' [Hget' [Hid' [Hname' [Hdesc' [Hcr' Hnd']]]]]].
    exists p'. repeat split; try congruence; auto.
Qed.

Lemma run_ops_keeps_identity_witness :
  exists p',
    dict_get (run_ops ascii_int fresh_store "p1" negative_run) "p1" = Some p'
    /\ pl_id p' = "p1" /\ pl_name p' = "Mix"
    /\ pl_description p' = Some ""
    /\ pl_created_at p' = "2024-01-01T10:00:00"
    /\ (NoDup (@nil string) -> NoDup (map song_id (pl_songs p'))).
Proof.
  apply (run_ops_keeps_identity ascii_int negative_run fresh_store "p1"
           (snd (create_playlist [] "p1" "Mix" (Some "")
                   "2024-01-01T10:00:00" "2024-01-01T10:00:00.000007"))).
  reflexivity.
Defined.

Lemma songs_duration_permutation (py_int : string -> option Z)
    (l l' : list song) :
  Permutation l l' -> songs_duration py_int l = songs_duration py_int l'.
Proof.
  induction 1; simpl; lia.
Qed.

(** Reordering by a permutation of [0, n) keeps what the other operations
    rely on: the number of songs, [total_duration], the agreement between
    [total_duration] and the sum of the songs' durations, and the
    distinctness of the song ids. *)
Theorem reorder_playlist_keeps_invariants
    (py_int : string -> option Z) (st : store) (playlist_id : string)
    (p : playlist) (song_indices : list Z) (now : string) :
  dict_get st playlist_id = Some p ->
  Permutation song_indices (map Z.of_nat (seq 0 (List.length (pl_songs p)))) ->
  exists st' p',
    reorder_playlist st playlist_id song_indices now = (st', Some p')
    /\ dict_get st' playlist_id = Some p'
    /\ List.length (pl_songs p') = List.length (pl_songs p)
    /\ pl_total_duration p' = pl_total_duration p
    /\ (duration_consistent py_int p -> duration_consistent py_int p')
    /\ (NoDup (map song_id (pl_songs p)) -> NoDup (map song_id (pl_songs p'))).
Proof.
  intros Hget Hperm.
  destruct (reorder_playlist_permutation st playlist_id p song_indices now
              Hget Hperm) as [reordered [E [_ Hp]]].
  rewrite E. eexists; eexists. split; [reflexivity |].
  split; [apply dict_get_set_same |]. simpl.
  split; [now apply Permutation_length |].
  split; [reflexivity |].
  split.
  - unfold duration_consistent. simpl. intros Hc. rewrite Hc.
    symmetry. now apply songs_duration_permutation.
  - intros Hnd. apply (Permutation_NoDup (l := map song_id (pl_songs p))); auto.
    apply Permutation_map. now apply Permutation_sym.
Qed.

Lemma reorder_playlist_keeps_invariants_witness :
  exists st' p',
    reorder_playlist [("p1", playlist_ab)] "p1" [1; 0] "2024-05-05T12:00:00"
      = (st', Some p')
    /\ dict_get st' "p1" = Some p'
    /\ List.length (pl_songs p') = 2%nat
    /\ pl_total_duration p' = 285
    /\ (duration_consistent ascii_int playlist_ab ->
        duration_consistent ascii_int p')
    /\ (NoDup (map song_id (pl_songs playlist_ab)) ->
        NoDup (map song_id (pl_songs p'))).
Proof.
  apply (reorder_playlist_keeps_invariants ascii_int [("p1", playlist_ab)]
           "p1" playlist_ab [1; 0] "2024-05-05T12:00:00").
  - reflexivity.
  - simpl. apply perm_swap.
Defined.

(** ** Recency after a write *)

Lemma dict_get_in_values (d : store) (k : string) (v : playlist) :
  dict_get d k = Some v -> In v (dict_values d).
Proof.
  induction d as [| [k0 v0] d IH]; simpl; [discriminate |].
  destruct (String.eqb k0 k); intros H.
  - left. congruence.
  - right. auto.
Qed.

Lemma dict_in_get (d : store) (k : string) (v : playlist) :
  unique_keys d -> In (k, v) d -> dict_get d k = Some v.
Proof.
  unfold unique_keys. induction d as [| [k0 v0] d IH]; simpl; [tauto |].
  intros Hnd [H | H].
  - inversion H; subst. now rewrite String.eqb_refl.
  - inversion Hnd as [| x l Hx Hnd']; subst.
    destruct (String.eqb_spec k0 k); auto.
    subst k0. exfalso. apply Hx. apply in_map_iff. exists (k, v). auto.
Qed.

(** A playlist stored with an [updated_at] later than that of every other
    playlist heads the list of recent playlists. *)
Lemma recent_head_after_set (st : store) (playlist_id : string)
    (p p' : playlist) (limit : Z) :
  unique_keys st ->
  dict_get st playlist_id = Some p ->
  (forall k q, k <> playlist_id -> dict_get st k = Some q ->
               String.ltb (pl_updated_at q) (pl_updated_at p') = true) ->
  1 <= limit ->
  exists rest,
    get_recent_playlists (dict_set st playlist_id p') limit = p' :: rest.
Proof.
  intros Hu Hget Holder Hlimit.
  set (st' := dict_set st playlist_id p').
  assert (Hu' : unique_keys st').
  { unfold unique_keys, st'. rewrite dict_set_keys; [exact Hu | congruence]. }
  assert (Hin : In p' (dict_values st')).
  { apply (dict_get_in_values st' playlist_id). apply dict_get_set_same. }
  assert (Hothers : forall q, In q (dict_values st') ->
            q = p' \/ String.ltb (pl_updated_at q) (pl_updated_at p') = true).
  { intros q Hq. apply in_map_iff in Hq. destruct Hq as [[k q'] [Hk Hq]].
    simpl in Hk. subst q'. apply (dict_in_get _ _ _ Hu') in Hq.
    destruct (string_dec k playlist_id) as [-> | Hne].
    - left. unfold st' in Hq. rewrite dict_get_set_same in Hq. congruence.
    - right. unfold st' in Hq. rewrite dict_get_set_other in Hq by auto.
      eauto. }
  unfold get_recent_playlists, py_slice_to.
  destruct (Z.leb_spec 0 limit); [| lia].
  pose proof (sort_desc_perm (dict_values st')) as Hperm.
  pose proof (sort_desc_sorted (dict_values st')) as Hsorted.
  destruct (sort_desc (dict_values st')) as [| h t] eqn:Hs.
  - apply Permutation_nil in Hperm.
    rewrite Hperm in Hin. destruct Hin.
  - assert (Hh : h = p').
    { destruct (Hothers h) as [E | Hlt]; auto.
      + apply (Permutation_in _ Hperm). now left.
      + apply (Permutation_in _ (Permutation_sym Hperm)) in Hin.
        destruct Hin as [E | Hin]; auto.
        inversion Hsorted as [| x l _ Hall]; subst.
        rewrite Forall_forall in Hall. specialize (Hall _ Hin).
        unfold not_older in Hall. rewrite string_leb_ltb, Hlt in Hall.
        discriminate. }
    subst h. destruct (Z.to_nat limit) as [| n] eqn:En; [lia |].
    simpl. eauto.
Qed.

(** After [update_playlist] with a clock reading later than the
    [updated_at] of every other playlist, the playlist updated comes first
    in [get_recent_playlists], for every limit of at least 1; and so does a
    playlist that just received a new song. *)
Theorem written_playlist_is_most_recent
    (py_int : string -> option Z) (st : store) (playlist_id : string)
    (p : playlist) (now : string) (limit : Z) :
  unique_keys st ->
  dict_get st playlist_id = Some p ->
  (forall k q, k <> playlist_id -> dict_get st k = Some q ->
               String.ltb (pl_updated_at q) now = true) ->
  1 <= limit ->
  (forall name description,
      exists st' p' rest,
        update_playlist st playlist_id name description now = (st', Some p')
        /\ get_recent_playlists st' limit = p' :: rest)
  /\ (forall s now_added,
        ~ In (req_id s) (map song_id (pl_songs p)) ->
        exists st' p' rest,
          add_song_to_playlist py_int st playlist_id s now_added now
            = (st', Some p')
          /\ get_recent_playlists st' limit = p' :: rest).
Proof.
  intros Hu Hget Holder Hlimit. split.
  - intros name description. unfold update_playlist. rewrite Hget.
    eexists; eexists.
    edestruct (recent_head_after_set st playlist_id p) as [rest Hrest];
      [exact Hu | exact Hget | | exact Hlimit |].
    2: { exists rest. split; [reflexivity | exact Hrest]. }
    exact Holder.
  - intros s now_added Hfresh.
    rewrite (add_song_result _ _ _ _ _ _ _ Hget Hfresh).
    eexists; eexists.
    edestruct (recent_head_after_set st playlist_id p) as [rest Hrest];
      [exact Hu | exact Hget | | exact Hlimit |].
    2: { exists rest. split; [reflexivity | exact Hrest]. }
    exact Holder.
Qed.

Lemma written_playlist_is_most_recent_witness :
  exists st' p' rest,
    update_playlist three_playlists "p1" (Some "Morning") None
      "2024-02-01T07:00:00" = (st', Some p')
    /\ get_recent_playlists st' 2 = p' :: rest.
Proof.
  destruct (written_playlist_is_most_recent ascii_int three_playlists "p1"
              (updated "p1" "2024-01-01T08:00:00") "2024-02-01T07:00:00" 2)
    as [H _].
  - unfold unique_keys. simpl.
    constructor; [| constructor; [| constructor; [| constructor]]];
      simpl; intuition discriminate.
  - reflexivity.
  - intros k q Hne Hq. unfold three_playlists, dict_get in Hq.
    destruct (String.eqb_spec "p2" k); [inversion Hq; reflexivity |].
    destruct (String.eqb_spec "p3" k); [inversion Hq; reflexivity |].
    destruct (String.eqb_spec "p1" k); [congruence | discriminate].
  - lia.
  - exact (H (Some "Morning") None).
Defined.

(** ** Decimal text: [int(str(n))] *)

Lemma digit_char_plain (c : ascii) :
  digit_char c = true ->
  is_space c = false /\ Ascii.eqb c "-" = false /\ Ascii.eqb c "+" = false
  /\ Ascii.eqb c colon = false.
Proof.
  destruct c as [[|] [|] [|] [|] [|] [|] [|] [|]];
    intros H; try discriminate H; repeat split.
Qed.

Lemma uint_chars_digits (u : Decimal.uint) :
  Forall (fun c => digit_char c = true)
         (list_ascii_of_string (NilEmpty.string_of_uint u)).
Proof.
  induction u; simpl; constructor; auto.
Qed.

Lemma lstrip_head (l : list ascii) :
  match l with c :: _ => is_space c = false | [] => True end ->
  lstrip l = l.
Proof.
  destruct l as [| c l]; simpl; auto. now intros ->.
Qed.

Lemma strip_no_space (l : list ascii) :
  Forall (fun c => is_space c = false) l -> strip l = l.
Proof.
  intros H. unfold strip.
  rewrite (lstrip_head l) by (destruct H; auto).
  assert (Hrev : Forall (fun c => is_space c = false) (rev l))
    by now apply Forall_rev.
  rewrite (lstrip_head (rev l)) by (destruct Hrev; auto).
  apply rev_involutive.
Qed.

Lemma digits_value_pos (u : Decimal.uint) (a : positive) (b : bool) :
  b = true \/ u <> Decimal.Nil ->
  digits_value (Z.pos a) b (list_ascii_of_string (NilEmpty.string_of_uint u))
  = Some (Z.pos (Pos.of_uint_acc u a)).
Proof.
  revert a b. induction u; intros a b H.
  1: destruct H as [-> | H]; [reflexivity | congruence].
  all: cbn [NilEmpty.string_of_uint list_ascii_of_string digits_value
            Pos.of_uint_acc].
  all: match goal with
       | |- context [digit_of ?c] =>
           let v := eval vm_compute in (digit_of c) in
           change (digit_of c) with v
       end; cbv iota.
  all: rewrite <- (IHu _ true) by now left.
  all: f_equal; lia.
Qed.

Lemma digits_value_zero (u : Decimal.uint) (b : bool) :
  b = true \/ u <> Decimal.Nil ->
  digits_value 0 b (list_ascii_of_string (NilEmpty.string_of_uint u))
  = Some (Z.of_N (Pos.of_uint u)).
Proof.
  revert b. induction u; intros b H.
  1: destruct H as [-> | H]; [reflexivity | congruence].
  all: cbn [NilEmpty.string_of_uint list_ascii_of_string digits_value
            Pos.of_uint].
  all: match goal with
       | |- context [digit_of ?c] =>
           let v := eval vm_compute in (digit_of c) in
           change (digit_of c) with v
       end; cbv iota.
  1: apply IHu; now left.
  all: cbn [Z.of_N]; apply (digits_value_pos u _ true); now left.
Qed.

Lemma ascii_int_of_uint (u : Decimal.uint) :
  u <> Decimal.Nil ->
  ascii_int (NilEmpty.string_of_uint u) = Some (Z.of_N (Pos.of_uint u)).
Proof.
  intros Hu. unfold ascii_int.
  pose proof (uint_chars_digits u) as Hd.
  rewrite strip_no_space.
  2: { eapply Forall_impl; [| exact Hd]. intros c Hc.
       now destruct (digit_char_plain c Hc). }
  pose proof (digits_value_zero u false (or_intror Hu)) as Hv.
  destruct (list_ascii_of_string (NilEmpty.string_of_uint u)) as [| c rest].
  - discriminate Hv.
  - inversion Hd as [| c' l Hc _]; subst.
    destruct (digit_char_plain c Hc) as [_ [Hminus [Hplus _]]].
    now rewrite Hminus, Hplus.
Qed.

Lemma string_of_uint_nonnil (u : Decimal.uint) :
  u <> Decimal.Nil -> NilZero.string_of_uint u = NilEmpty.string_of_uint u.
Proof.
  destruct u; [congruence | reflexivity ..].
Qed.

(** Reading the decimal text of an integer gives the integer back. *)
Lemma ascii_int_str (n : Z) : ascii_int (py_str_of_int n) = Some n.
Proof.
  unfold py_str_of_int. destruct n as [| p | p]; simpl.
  - reflexivity.
  - pose proof (Unsigned.to_uint_nonnil p) as Hnil.
    rewrite (string_of_uint_nonnil _ Hnil), (ascii_int_of_uint _ Hnil).
    now rewrite Unsigned.of_to.
  - pose proof (Unsigned.to_uint_nonnil p) as Hnil.
    rewrite (string_of_uint_nonnil _ Hnil).
    unfold ascii_int. cbn [list_ascii_of_string].
    rewrite strip_no_space.
    2: { constructor; [reflexivity |].
         eapply Forall_impl; [| apply uint_chars_digits]. intros c Hc.
         now destruct (digit_char_plain c Hc). }
    cbn [Ascii.eqb Bool.eqb]. cbv iota.
    rewrite (digits_value_zero _ false (or_intror Hnil)).
    rewrite Unsigned.of_to. reflexivity.
Qed.

Lemma str_no_colon (n : Z) :
  Forall (fun c => Ascii.eqb c colon = false)
         (list_ascii_of_string (py_str_of_int n)).
Proof.
  assert (Hu : forall u, Forall (fun c => Ascii.eqb c colon = false)
                 (list_ascii_of_string (NilZero.string_of_uint u))).
  { intros u. destruct (Decimal.uint_eq_dec u Decimal.Nil) as [-> | Hnil].
    - repeat constructor.
    - rewrite (string_of_uint_nonnil _ Hnil).
      eapply Forall_impl; [| apply uint_chars_digits]. intros c Hc.
      now destruct (digit_char_plain c Hc) as [_ [_ [_ H]]]. }
  unfold py_str_of_int. destruct (Z.to_int n) as [u | u]; simpl.
  - apply Hu.
  - constructor; [reflexivity | apply Hu].
Qed.

Lemma split_on_before_colon (a b : string) :
  Forall (fun c => Ascii.eqb c colon = false) (list_ascii_of_string a) ->
  split_on colon (a ++ String colon b) = a :: split_on colon b.
Proof.
  induction a as [| c a IH]; simpl; intros H.
  - reflexivity.
  - inversion H as [| c' l Hc Ha]; subst. rewrite Hc, IH; auto.
Qed.

Lemma string_length_append (a b : string) :
  String.length (a ++ b) = (String.length a + String.length b)%nat.
Proof.
  induction a as [| c a IH]; simpl; auto.
Qed.

(** The two-digit text of every number from 0 to 99 reads back as the
    number, holds no colon and is two characters long. *)
Lemma two_digit_text (n : Z) :
  0 <= n < 100 ->
  ascii_int (format_02d n) = Some n
  /\ split_on colon (format_02d n) = [format_02d n]
  /\ String.length (format_02d n) = 2%nat.
Proof.
  intros Hn.
  assert (Hall : forallb two_digit_ok (map Z.of_nat (seq 0 100)) = true)
    by (vm_compute; reflexivity).
  rewrite forallb_forall in Hall.
  assert (Hok : two_digit_ok n = true).
  { apply Hall. apply in_map_iff. exists (Z.to_nat n).
    split; [lia |]. apply in_seq. lia. }
  unfold two_digit_ok in Hok.
  apply andb_prop in Hok. destruct Hok as [Hok Hlen].
  apply andb_prop in Hok. destruct Hok as [Hint Hsplit].
  repeat split.
  - destruct (ascii_int (format_02d n)) as [m |]; [| discriminate].
    apply Z.eqb_eq in Hint. congruence.
  - destruct (split_on colon (format_02d n)) as [| piece [| x l]];
      try discriminate.
    apply String.eqb_eq in Hsplit. congruence.
  - now apply Nat.eqb_eq.
Qed.

(** ** Search results *)

(** The duration text of a search result and the duration policy of the
    playlists agree: for a duration that is a number other than zero,
    [search_videos] writes a text that [add_song_to_playlist] reads back as
    [int(duration)] seconds, negative numbers included; for any other
    duration it writes ["Live"] or ["N/A"], which count for nothing. *)
Theorem search_duration_parses_back (duration : py_value) (is_live : bool) :
  (forall x, as_number duration = Some x -> ~ (x == 0)%Q ->
     duration_seconds ascii_int (format_duration duration is_live)
     = Some (py_int_of_number x))
  /\ ((as_number duration = None
       \/ exists x, as_number duration = Some x /\ (x == 0)%Q) ->
      format_duration duration is_live = (if is_live then "Live" else "N/A")
      /\ duration_seconds ascii_int (format_duration duration is_live) = None).
Proof.
  split.
  - intros x Hx Hnz. unfold format_duration. rewrite Hx.
    destruct (Qeq_bool x 0) eqn:E; [apply Qeq_bool_iff in E; contradiction |].
    set (n := py_int_of_number x).
    assert (Hs : 0 <= n mod 60 < 100)
      by (pose proof (Z.mod_pos_bound n 60); lia).
    destruct (two_digit_text _ Hs) as [Hint [Hsplit _]].
    unfold duration_seconds.
    change (py_str_of_int (n / 60) ++ ":" ++ format_02d (n mod 60))
      with (py_str_of_int (n / 60) ++ String colon (format_02d (n mod 60))).
    rewrite split_on_before_colon by apply str_no_colon.
    rewrite Hsplit, ascii_int_str, Hint. f_equal.
    pose proof (Z.div_mod n 60). lia.
  - intros H.
    assert (E : format_duration duration is_live
                = if is_live then "Live" else "N/A").
    { unfold format_duration. destruct H as [-> | [x [-> Hz]]]; auto.
      apply Qeq_bool_iff in Hz. now rewrite Hz. }
    rewrite E. split; [reflexivity |]. now destruct is_live.
Qed.

Lemma search_duration_parses_back_witness :
  duration_seconds ascii_int (format_duration (PyFloat (4511 # 20)) false)
  = Some 225.
Proof.
  destruct (search_duration_parses_back (PyFloat (4511 # 20)) false) as [H _].
  apply (H (4511 # 20)%Q); [reflexivity | discriminate].
Defined.

Lemma in_firstn {A : Type} (n : nat) (l : list A) (x : A) :
  In x (firstn n l) -> In x l.
Proof.
  intros H. rewrite <- (firstn_skipn n l). apply in_or_app. now left.
Qed.

Lemma thumbnail_of_nonempty (id : string) (thumbnails : list (option string)) :
  thumbnail_of id thumbnails <> "".
Proof.
  unfold thumbnail_of.
  destruct (last thumbnails None) as [url |]; [| discriminate].
  destruct (String.eqb_spec url ""); [discriminate | assumption].
Qed.

Lemma formatted_results_ids (format_1f : Q -> string)
    (entries : list (option video_entry)) :
  map sr_id (formatted_results format_1f entries) = usable_ids entries.
Proof.
  induction entries as [| [v |] entries IH]; simpl; auto.
  destruct (v_id v) as [id |]; auto.
  destruct (String.eqb id ""); simpl; now rewrite ?IH.
Qed.

Lemma formatted_results_from_entries (format_1f : Q -> string)
    (entries : list (option video_entry)) (r : search_result) :
  In r (formatted_results format_1f entries) ->
  exists v, In (Some v) entries /\ v_id v = Some (sr_id r)
            /\ format_entry format_1f (Some v) = Some r.
Proof.
  induction entries as [| video entries IH]; simpl; [tauto |].
  destruct (format_entry format_1f video) as [r0 |] eqn:E.
  - intros [<- | Hin].
    + destruct video as [v |]; [| discriminate].
      exists v. split; [now left |]. split; [| exact E].
      simpl in E. destruct (v_id v) as [id |]; [| discriminate].
      destruct (String.eqb id ""); [discriminate |].
      inversion E. reflexivity.
    + destruct (IH Hin) as [v [Hv H]]. exists v. split; [now right | exact H].
  - intros Hin. destruct (IH Hin) as [v [Hv H]].
    exists v. split; [now right | exact H].
Qed.

(** What [search_videos] returns for a limit that is not negative: the ids
    of the results are the first [limit] ids of the entries that have a
    non-empty id, in the order of the entries, so there are at most [limit]
    results; every result comes from an entry with that id, its id is not
    empty, its url is the watch url of the id, its thumbnail is not empty,
    and its duration and views are the formatted ones of the entry. *)
Theorem search_videos_results (format_1f : Q -> string)
    (entries : list (option video_entry)) (limit : Z) :
  0 <= limit ->
  let results := search_videos format_1f (Some entries) limit in
  map sr_id results = firstn (Z.to_nat limit) (usable_ids entries)
  /\ Z.of_nat (List.length results) <= limit
  /\ (forall r, In r results ->
        sr_id r <> "" /\ sr_url r = watch_url (sr_id r)
        /\ sr_thumbnail r <> ""
        /\ exists v, In (Some v) entries /\ v_id v = Some (sr_id r)
             /\ sr_duration r = format_duration (v_duration v) (v_is_live v)
             /\ sr_views r = format_views format_1f (v_view_count v)).
Proof.
  intros Hlimit. simpl. unfold py_slice_to.
  destruct (Z.leb_spec 0 limit); [| lia].
  split; [| split].
  - rewrite <- firstn_map. now rewrite formatted_results_ids.
  - pose proof (firstn_le_length (Z.to_nat limit)
                  (formatted_results format_1f entries)). lia.
  - intros r Hr. apply in_firstn in Hr.
    destruct (formatted_results_from_entries _ _ _ Hr) as [v [Hv [Hid E]]].
    simpl in E. rewrite Hid in E.
    destruct (String.eqb_spec (sr_id r) "") as [He | Hne]; [discriminate |].
    injection E as E. rewrite <- E. simpl.
    repeat split; auto.
    + apply thumbnail_of_nonempty.
    + exists v. rewrite <- E in Hid. simpl in Hid. auto.
Qed.

Lemma search_videos_results_witness :
  map sr_id (search_videos (fun _ => "1.2") (Some sample_entries) 5)
  = ["abc"; "xyz"].
Proof.
  destruct (search_videos_results (fun _ => "1.2") sample_entries 5) as [H _].
  - lia.
  - exact H.
Defined.

(** ** Statistics *)

Lemma sum_durations_set (d : store) (k : string) (p p' : playlist) :
  dict_get d k = Some p ->
  fold_right Z.add 0 (map pl_total_duration (dict_values (dict_set d k p')))
  = fold_right Z.add 0 (map pl_total_duration (dict_values d))
    - pl_total_duration p + pl_total_duration p'.
Proof.
  induction d as [| [k0 v0] d IH]; simpl; [discriminate |].
  destruct (String.eqb k0 k); simpl; intros H.
  - inversion H; subst. lia.
  - rewrite IH by assumption. lia.
Qed.

Lemma sum_songs_set (d : store) (k : string) (p p' : playlist) :
  dict_get d k = Some p ->
  (fold_right Nat.add 0
     (map (fun q => List.length (pl_songs q)) (dict_values (dict_set d k p')))
   + List.length (pl_songs p)
   = fold_right Nat.add 0
       (map (fun q => List.length (pl_songs q)) (dict_values d))
     + List.length (pl_songs p'))%nat.
Proof.
  induction d as [| [k0 v0] d IH]; simpl; [discriminate |].
  destruct (String.eqb k0 k); simpl; intros H.
  - inversion H; subst. lia.
  - specialize (IH H). lia.
Qed.

Lemma split_single_no_colon (s : string) :
  split_on colon s = [s] ->
  Forall (fun c => Ascii.eqb c colon = false) (list_ascii_of_string s).
Proof.
  induction s as [| c s IH]; simpl; intros H.
  - constructor.
  - destruct (Ascii.eqb c colon) eqn:E; [discriminate |].
    destruct (split_on colon s) as [| piece pieces] eqn:Es.
    + inversion H; subst. repeat constructor. exact E.
    + inversion H; subst. constructor; auto.
Qed.

(** The formatted total of [get_playlist_stats] is hours, minutes and
    seconds of [total_duration_seconds], each written with at least two
    digits: minutes and seconds lie in 0..59 and the three add up to the
    total. For a total from 0 up to 99:59:59 the text is eight characters
    long and its three colon-separated pieces read back as the hours,
    minutes and seconds. *)
Theorem playlist_stats_formatted (st : store) :
  let stats := get_playlist_stats st in
  exists hours minutes seconds,
    total_duration_seconds stats = hours * 3600 + minutes * 60 + seconds
    /\ 0 <= minutes < 60 /\ 0 <= seconds < 60
    /\ total_duration_formatted stats
       = format_02d hours ++ ":" ++ format_02d minutes ++ ":"
         ++ format_02d seconds
    /\ (0 <= total_duration_seconds stats < 360000 ->
        String.length (total_duration_formatted stats) = 8%nat
        /\ map ascii_int (split_on colon (total_duration_formatted stats))
           = [Some hours; Some minutes; Some seconds]).
Proof.
  unfold get_playlist_stats.
  cbv zeta. cbn [total_duration_seconds total_duration_formatted].
  set (total := fold_right Z.add 0 (map pl_total_duration (dict_values st))).
  exists (total / 3600), ((total mod 3600) / 60), (total mod 60).
  pose proof (Z.div_mod total 3600) as H1.
  pose proof (Z.div_mod (total mod 3600) 60) as H2.
  pose proof (Z.mod_pos_bound total 3600) as H3.
  pose proof (Z.mod_pos_bound total 60) as H4.
  pose proof (Z.mod_pos_bound (total mod 3600) 60) as H5.
  pose proof (Z.div_mod total 60) as H6.
  split; [lia |].
  split; [split; [apply Z.div_pos; lia | apply Z.div_lt_upper_bound; lia] |].
  split; [lia |].
  split; [reflexivity |].
  intros Htotal.
  assert (Hh : 0 <= total / 3600 < 100)
    by (split; [apply Z.div_pos; lia | apply Z.div_lt_upper_bound; lia]).
  assert (Hm : 0 <= (total mod 3600) / 60 < 100)
    by (split; [apply Z.div_pos; lia | apply Z.div_lt_upper_bound; lia]).
  assert (Hs : 0 <= total mod 60 < 100) by lia.
  destruct (two_digit_text _ Hh) as [Hhi [Hhs Hhl]].
  destruct (two_digit_text _ Hm) as [Hmi [Hms Hml]].
  destruct (two_digit_text _ Hs) as [Hsi [Hss Hsl]].
  assert (Hnc : forall n, 0 <= n < 100 ->
            Forall (fun c => Ascii.eqb c colon = false)
                   (list_ascii_of_string (format_02d n))).
  { intros n Hn. apply split_single_no_colon.
    now destruct (two_digit_text _ Hn) as [_ [Hsp _]]. }
  split.
  - rewrite !string_length_append, Hhl, Hml, Hsl. reflexivity.
  - change (format_02d (total / 3600) ++ ":" ++
            format_02d (total mod 3600 / 60) ++ ":" ++
            format_02d (total mod 60))
      with (format_02d (total / 3600) ++ String colon
              (format_02d (total mod 3600 / 60) ++ String colon
                 (format_02d (total mod 60)))).
    rewrite !split_on_before_colon by (apply Hnc; assumption).
    rewrite Hss. simpl. now rewrite Hhi, Hmi, Hsi.
Qed.

Example playlist_stats_sample :
  get_playlist_stats two_stores
  = {| total_playlists := 2; total_songs := 2;
       total_duration_seconds := 3790;
       total_duration_formatted := "01:03:10" |}.
Proof. reflexivity. Qed.

(** The statistics follow an addition: after a new song is added to a
    playlist of the store, there are as many playlists, one song more, and
    the total duration has grown by what the song's duration string counts
    for (nothing, if it does not parse). *)
Theorem stats_after_add
    (py_int : string -> option Z) (st : store) (playlist_id : string)
    (p : playlist) (s : song_request) (now_added now_updated : string) :
  dict_get st playlist_id = Some p ->
  ~ In (req_id s) (map song_id (pl_songs p)) ->
  let st' := fst (add_song_to_playlist py_int st playlist_id s
                    now_added now_updated) in
  total_playlists (get_playlist_stats st')
  = total_playlists (get_playlist_stats st)
  /\ total_songs (get_playlist_stats st')
     = S (total_songs (get_playlist_stats st))
  /\ total_duration_seconds (get_playlist_stats st')
     = total_duration_seconds (get_playlist_stats st)
       + parsed_seconds py_int (req_duration s).
Proof.
  intros Hget Hfresh.
  rewrite (add_song_result _ _ _ _ _ _ _ Hget Hfresh).
  unfold get_playlist_stats. cbv zeta.
  cbn [fst total_playlists total_songs total_duration_seconds].
  split; [| split].
  - rewrite <- (length_map fst), dict_set_keys by congruence.
    apply length_map.
  - pose proof (sum_songs_set st playlist_id p
                  (with_songs p (pl_songs p ++ [song_data_of s now_added])
                     match duration_seconds py_int (req_duration s) with
                     | Some d => pl_total_duration p + d
                     | None => pl_total_duration p
                     end now_updated) Hget) as H.
    simpl in H. rewrite length_app in H. simpl in H. lia.
  - rewrite (sum_durations_set _ _ _ _ Hget). simpl. unfold parsed_seconds.
    destruct (duration_seconds py_int (req_duration s)); lia.
Qed.

Lemma stats_after_add_witness :
  total_songs
    (get_playlist_stats
       (fst (add_song_to_playlist ascii_int two_stores "p2"
               (request "c" "2:05") "2024-03-03T09:00:00"
               "2024-03-03T09:00:01")))
  = 3%nat.
Proof.
  destruct (stats_after_add ascii_int two_stores "p2"
              (with_songs playlist_a [stored "b" "61:40"] 3700
                 "2024-01-01T10:00:00")
              (request "c" "2:05") "2024-03-03T09:00:00" "2024-03-03T09:00:01")
    as [_ [H _]].
  - reflexivity.
  - simpl. intuition discriminate.
  - exact H.
Defined.

Lemma sums_del (d : store) (k : string) (p : playlist) :
  unique_keys d -> dict_get d k = Some p ->
  fold_right Z.add 0 (map pl_total_duration (dict_values d))
  = pl_total_duration p
    + fold_right Z.add 0 (map pl_total_duration (dict_values (dict_del d k)))
  /\ fold_right Nat.add 0%nat
       (map (fun q => List.length (pl_songs q)) (dict_values d))
     = (List.length (pl_songs p)
        + fold_right Nat.add 0
            (map (fun q => List.length (pl_songs q))
                 (dict_values (dict_del d k))))%nat.
Proof.
  unfold unique_keys.
  induction d as [| [k0 v0] d IH]; simpl; [discriminate |].
  intros Hnd Hget. inversion Hnd as [| x l Hx Hnd']; subst.
  destruct (String.eqb_spec k0 k); simpl.
  - subst k0. inversion Hget; subst.
    rewrite dict_del_absent by assumption. split; reflexivity.
  - destruct (IH Hnd' Hget) as [H1 H2]. rewrite H1, H2. split; lia.
Qed.

(** The statistics follow a deletion: on a store that holds each id once,
    deleting a playlist takes one playlist, its songs and its
    [total_duration] off the totals. *)
Theorem stats_after_delete (st : store) (playlist_id : string) (p : playlist) :
  unique_keys st ->
  dict_get st playlist_id = Some p ->
  let st' := fst (delete_playlist st playlist_id) in
  total_playlists (get_playlist_stats st)
  = S (total_playlists (get_playlist_stats st'))
  /\ total_songs (get_playlist_stats st)
     = (List.length (pl_songs p) + total_songs (get_playlist_stats st'))%nat
  /\ total_duration_seconds (get_playlist_stats st)
     = pl_total_duration p + total_duration_seconds (get_playlist_stats st').
Proof.
  intros Hu Hget. unfold delete_playlist, dict_mem. rewrite Hget.
  unfold get_playlist_stats. cbv zeta.
  cbn [fst total_playlists total_songs total_duration_seconds].
  destruct (sums_del st playlist_id p Hu Hget) as [H1 H2].
  split; [| split; assumption].
  symmetry. apply dict_del_length; auto.
  destruct (in_dec string_dec playlist_id (map fst st)) as [H | H]; auto.
  apply dict_get_not_in in H. congruence.
Qed.

Lemma stats_after_delete_witness :
  total_duration_seconds (get_playlist_stats two_stores)
  = 90 + total_duration_seconds
           (get_playlist_stats (fst (delete_playlist two_stores "p1"))).
Proof.
  destruct (stats_after_delete two_stores "p1"
              (with_songs playlist_a [stored "a" "1:30"] 90
                 "2024-01-01T10:00:00")) as [_ [_ H]].
  - unfold unique_keys. simpl.
    constructor; [| constructor; [| constructor]]; simpl; intuition discriminate.
  - reflexivity.
  - exact H.
Defined.

(** ** Searching playlists *)

Lemma prefix_empty (s : string) : String.prefix "" s = true.
Proof. now destruct s. Qed.

Lemma prefix_append (a b : string) :
  String.prefix a b = true <-> exists post, b = a ++ post.
Proof.
  revert b. induction a as [| c a IH]; intros b.
  - rewrite prefix_empty. split; auto. intros _. now exists b.
  - destruct b as [| c' b]; simpl.
    + split; [discriminate | intros [post H]; discriminate].
    + destruct (ascii_dec c c') as [<- | Hne].
      * rewrite IH. split; intros [post H]; exists post; simpl in *; congruence.
      * split; [discriminate |]. intros [post H]. simpl in H. congruence.
Qed.

Lemma contains_unfold (needle hay : string) :
  contains needle hay
  = if String.prefix needle hay then true
    else match hay with
         | EmptyString => false
         | String _ rest => contains needle rest
         end.
Proof. now destruct hay. Qed.

(** [contains needle hay] holds exactly when [needle] occurs in [hay]. *)
Lemma contains_occurs (needle hay : string) :
  contains needle hay = true <->
  exists pre post, hay = pre ++ needle ++ post.
Proof.
  split.
  - induction hay as [| c hay IH]; rewrite contains_unfold;
      destruct (String.prefix needle _) eqn:E.
    + intros _. apply prefix_append in E. destruct E as [post E].
      exists "", post. exact E.
    + discriminate.
    + intros _. apply prefix_append in E. destruct E as [post E].
      exists "", post. exact E.
    + intros H. destruct (IH H) as [pre [post E']].
      exists (String c pre), post. simpl. now rewrite E'.
  - intros [pre [post E]]. subst hay.
    induction pre as [| c pre IH]; rewrite contains_unfold.
    + assert (Hp : String.prefix needle ("" ++ needle ++ post) = true)
        by (apply prefix_append; now exists post).
      now rewrite Hp.
    + destruct (String.prefix needle _); auto.
Qed.

Section SearchLoop.

Variable py_lower : string -> string.

Lemma keeps_occurs (query : string) (p : playlist) :
  keeps py_lower query p = true <->
  occurs query (py_lower (pl_name p))
  \/ exists description,
       pl_description p = Some description
       /\ occurs query (py_lower description).
Proof.
  unfold keeps, matches_query, occurs.
  destruct (contains query (py_lower (pl_name p))) eqn:En.
  - apply contains_occurs in En. tauto.
  - assert (Hn : ~ exists pre post, py_lower (pl_name p) = pre ++ query ++ post).
    { intros H. apply contains_occurs in H. congruence. }
    destruct (pl_description p) as [d |].
    + rewrite contains_occurs. split.
      * intros H. right. exists d. auto.
      * intros [H | [d' [Hd H]]]; [contradiction |].
        inversion Hd; subst d'. exact H.
    + split; [discriminate |].
      intros [H | [d' [Hd H]]]; [contradiction | discriminate].
Qed.

Lemma raises_none (query : string) (p : playlist) :
  raises py_lower query p = true <->
  pl_description p = None /\ ~ occurs query (py_lower (pl_name p)).
Proof.
  unfold raises, matches_query, occurs.
  destruct (contains query (py_lower (pl_name p))) eqn:En.
  - apply contains_occurs in En. split; [discriminate | tauto].
  - assert (Hn : ~ exists pre post, py_lower (pl_name p) = pre ++ query ++ post).
    { intros H. apply contains_occurs in H. congruence. }
    destruct (pl_description p); split; auto; try discriminate.
    intros [H _]. discriminate.
Qed.

Lemma search_loop_returns (query : string) (playlists results : list playlist) :
  existsb (raises py_lower query) playlists = false ->
  search_loop py_lower query playlists results
  = Returns (results ++ filter (keeps py_lower query) playlists)%list.
Proof.
  revert results. induction playlists as [| p l IH]; intros results; simpl.
  - now rewrite app_nil_r.
  - unfold raises at 1, keeps at 1.
    destruct (matches_query py_lower query p) as [[|] | m]; simpl;
      try discriminate; intros H; rewrite IH by assumption.
    + now rewrite <- app_assoc.
    + reflexivity.
Qed.

Lemma search_loop_raises (query : string) (playlists results : list playlist) :
  existsb (raises py_lower query) playlists = true ->
  search_loop py_lower query playlists results = Raises none_has_no_lower.
Proof.
  revert results. induction playlists as [| p l IH]; intros results; simpl.
  - discriminate.
  - unfold raises at 1.
    destruct (matches_query py_lower query p) as [[|] | m] eqn:E; simpl; auto.
    intros _. unfold matches_query in E.
    destruct (contains query (py_lower (pl_name p))); [discriminate |].
    destruct (pl_description p); [discriminate |].
    injection E as <-. reflexivity.
Qed.

End SearchLoop.

(** What [search_playlists] does. It raises exactly when the store holds a
    playlist whose description is [None] and whose lower-cased name does
    not contain the lower-cased query: the description of a playlist is only
    looked at when its name does not match. When it returns, the result
    holds, in the order of the store, exactly the playlists whose lower-cased
    name or lower-cased description contains the lower-cased query; so a
    query that lowers to the same text as the name of a playlist finds that
    playlist. When [lower] maps the empty string to itself, the empty query
    returns every playlist, whatever the descriptions are. *)
Theorem search_playlists_finds (py_lower : string -> string) (st : store) :
  (forall query,
      (search_playlists py_lower st query = Raises none_has_no_lower <->
       exists p, In p (get_all_playlists st)
                 /\ pl_description p = None
                 /\ ~ occurs (py_lower query) (py_lower (pl_name p)))
      /\ ((forall message,
             search_playlists py_lower st query <> Raises message) <->
          forall p, In p (get_all_playlists st) ->
                    pl_description p = None ->
                    occurs (py_lower query) (py_lower (pl_name p))))
  /\ (forall query results,
        search_playlists py_lower st query = Returns results ->
        (exists keep, results = filter keep (get_all_playlists st))
        /\ forall p,
             In p results <->
             In p (get_all_playlists st)
             /\ (occurs (py_lower query) (py_lower (pl_name p))
                 \/ exists description,
                      pl_description p = Some description
                      /\ occurs (py_lower query) (py_lower description)))
  /\ (forall query results p,
        search_playlists py_lower st query = Returns results ->
        In p (get_all_playlists st) ->
        py_lower query = py_lower (pl_name p) ->
        In p results)
  /\ (py_lower "" = "" ->
      search_playlists py_lower st "" = Returns (get_all_playlists st)).
Proof.
  unfold search_playlists, get_all_playlists.
  assert (Hraise : forall query,
            existsb (raises py_lower (py_lower query)) (dict_values st) = true
            <-> exists p, In p (dict_values st)
                          /\ pl_description p = None
                          /\ ~ occurs (py_lower query) (py_lower (pl_name p))).
  { intros query. rewrite existsb_exists.
    split; intros [p [Hin H]]; exists p; split; auto; now apply raises_none. }
  assert (Hret : forall query results,
            search_loop py_lower (py_lower query) (dict_values st) []
              = Returns results ->
            results = filter (keeps py_lower (py_lower query)) (dict_values st)).
  { intros query results H.
    destruct (existsb (raises py_lower (py_lower query)) (dict_values st)) eqn:E.
    - rewrite (search_loop_raises _ _ _ _ E) in H. discriminate.
    - rewrite (search_loop_returns _ _ _ _ E) in H. simpl in H. congruence. }
  assert (Hself : forall s, occurs s s).
  { intros s. exists "", "". simpl.
    induction s as [| c s IH]; simpl; congruence. }
  split; [| split; [| split]].
  - intros query.
    destruct (existsb (raises py_lower (py_lower query)) (dict_values st)) eqn:E.
    + rewrite (search_loop_raises _ _ _ _ E). split.
      * split; [intros _; now apply Hraise | reflexivity].
      * split.
        -- intros H. exfalso. now apply (H none_has_no_lower).
        -- intros H. apply Hraise in E. destruct E as [p [Hin [Hd Hn]]].
           exfalso. apply Hn. now apply H.
    + rewrite (search_loop_returns _ _ _ _ E). split.
      * split; [discriminate |]. intros H. apply Hraise in H. congruence.
      * split; [| intros _ message; discriminate].
        intros _ p Hin Hd.
        destruct (contains (py_lower query) (py_lower (pl_name p))) eqn:Ec.
        -- now apply contains_occurs.
        -- assert (Hr : raises py_lower (py_lower query) p = true).
           { apply raises_none. split; auto. intros Ho.
             apply contains_occurs in Ho. congruence. }
           assert (Hex : existsb (raises py_lower (py_lower query))
                           (dict_values st) = true)
             by (apply existsb_exists; eauto).
           congruence.
  - intros query results H. apply Hret in H. subst results. split; [eauto |].
    intros p. rewrite filter_In, keeps_occurs. tauto.
  - intros query results p H Hin Hq. apply Hret in H. subst results.
    apply filter_In. split; auto. apply keeps_occurs. left.
    rewrite Hq. apply Hself.
  - intros Hempty. rewrite Hempty.
    assert (Hall : forall p, matches_query py_lower "" p = Returns true).
    { intros p. unfold matches_query.
      now rewrite (contains_unfold "" (py_lower (pl_name p))), prefix_empty. }
    assert (Hloop : forall l results,
              search_loop py_lower "" l results = Returns (results ++ l)%list).
    { induction l as [| p l IH]; intros results; simpl.
      - now rewrite app_nil_r.
      - rewrite Hall, IH, <- app_assoc. reflexivity. }
    apply (Hloop (dict_values st) []).
Qed.

Lemma search_playlists_finds_witness :
  search_playlists ascii_lower playlists_with_none ""
  = Returns (get_all_playlists playlists_with_none)
  /\ forall results,
       search_playlists ascii_lower playlists_with_none "FOCUS"
         = Returns results ->
       In (named "p2" "Focus" None) results.
Proof.
  destruct (search_playlists_finds ascii_lower playlists_with_none)
    as [_ [_ [Hname Hempty]]].
  split.
  - apply Hempty. reflexivity.
  - intros results H.
    apply (Hname "FOCUS" results (named "p2" "Focus" None) H);
      [right; now left | reflexivity].
Defined.

Example search_playlists_sample :
  option_map (map pl_id)
    (match search_playlists ascii_lower named_playlists "TRIP" with
     | Returns results => Some results
     | Raises _ => None
     end)
  = Some ["p1"; "p3"].
Proof. reflexivity. Qed.

(** The name matches first: a query found in every playlist without a
    description goes through, any other query raises. *)
Example search_playlists_none_description :
  search_playlists ascii_lower playlists_with_none "focus"
    = Returns [named "p2" "Focus" None]
  /\ search_playlists ascii_lower playlists_with_none "trip"
     = Raises none_has_no_lower.
Proof. split; reflexivity. Qed.

(** ** Reordering, in full *)

Lemma py_index_accepts {A : Type} (l : list A) (i : Z) :
  index_in_range (List.length l) i ->
  py_index l i = nth_error l (Z.to_nat (i mod Z.of_nat (List.length l)))
  /\ py_index l i <> None.
Proof.
  unfold index_in_range, py_index. intros H.
  set (n := Z.of_nat (List.length l)) in *.
  destruct (Z.leb_spec 0 i); destruct (Z.ltb_spec i n); simpl; try lia.
  - rewrite Z.mod_small by lia. split; auto.
    apply nth_error_Some. lia.
  - destruct (Z.leb_spec (- n) i); destruct (Z.ltb_spec i 0); simpl; try lia.
    assert (E : i mod n = n + i).
    { symmetry. apply (Z.mod_unique_pos i n (-1)); lia. }
    rewrite E. split; auto. apply nth_error_Some. lia.
Qed.

Lemma py_index_all_accepts {A : Type} (l : list A) (idxs : list Z) :
  Forall (index_in_range (List.length l)) idxs ->
  exists xs,
    py_index_all l idxs = Some xs
    /\ map Some xs
       = map (fun i => nth_error l
                         (Z.to_nat (i mod Z.of_nat (List.length l)))) idxs.
Proof.
  induction 1 as [| i idxs Hi _ [xs [E Hxs]]]; simpl.
  - exists []. auto.
  - destruct (py_index_accepts l i Hi) as [Hnth Hsome].
    rewrite E. destruct (py_index l i) as [x |] eqn:Ex; [| congruence].
    exists (x :: xs). simpl. now rewrite Hxs, <- Hnth.
Qed.

Lemma py_index_all_refuses {A : Type} (l : list A) (idxs : list Z) :
  py_index_all l idxs = None ->
  exists i, In i idxs /\ ~ index_in_range (List.length l) i.
Proof.
  induction idxs as [| i idxs IH]; simpl; [discriminate |].
  destruct (py_index l i) as [x |] eqn:Ex.
  - destruct (py_index_all l idxs); [discriminate |].
    intros _. destruct (IH eq_refl) as [j [Hj Hout]]. exists j. auto.
  - intros _. exists i. split; [now left |].
    intros Hin. now destruct (py_index_accepts l i Hin).
Qed.

(** When [reorder_playlist] refuses and when it does not. It answers [None]
    exactly when the playlist is not in the store, or the number of indices
    differs from the number of songs, or some index lies outside [-n, n);
    the store is then unchanged. In every other case it answers the
    playlist whose song at position [k] is the old song at position
    [song_indices[k] mod n], with [updated_at] set and [total_duration]
    kept: duplicates among the indices are not looked for. *)
Theorem reorder_playlist_refuses_exactly
    (st : store) (playlist_id : string) (song_indices : list Z) (now : string) :
  (snd (reorder_playlist st playlist_id song_indices now) = None <->
   dict_get st playlist_id = None
   \/ exists p, dict_get st playlist_id = Some p
        /\ (List.length song_indices <> List.length (pl_songs p)
            \/ exists i, In i song_indices
                 /\ ~ index_in_range (List.length (pl_songs p)) i))
  /\ (snd (reorder_playlist st playlist_id song_indices now) = None ->
      fst (reorder_playlist st playlist_id song_indices now) = st)
  /\ (forall p',
        snd (reorder_playlist st playlist_id song_indices now) = Some p' ->
        exists p,
          dict_get st playlist_id = Some p
          /\ map Some (pl_songs p')
             = map (fun i => nth_error (pl_songs p)
                     (Z.to_nat (i mod Z.of_nat (List.length (pl_songs p)))))
                   song_indices
          /\ pl_updated_at p' = now
          /\ pl_total_duration p' = pl_total_duration p
          /\ dict_get (fst (reorder_playlist st playlist_id song_indices now))
               playlist_id = Some p').
Proof.
  unfold reorder_playlist.
  destruct (dict_get st playlist_id) as [p |] eqn:Hget; simpl.
  2: { split; [split; auto |]. split; [auto | discriminate]. }
  destruct (Nat.eqb_spec (List.length song_indices) (List.length (pl_songs p)))
    as [Hlen | Hlen]; simpl.
  2: { split; [split; eauto |]. split; [auto | discriminate]. }
  destruct (py_index_all (pl_songs p) song_indices) as [xs |] eqn:Eall; simpl.
  - assert (Hall : Forall (index_in_range (List.length (pl_songs p)))
                     song_indices).
    { apply Forall_forall. intros i Hi.
      destruct (Z_le_dec (- Z.of_nat (List.length (pl_songs p))) i);
        destruct (Z_lt_dec i (Z.of_nat (List.length (pl_songs p))));
        try (split; assumption).
      all: rewrite (py_index_all_outside _ _ i Hi) in Eall by lia.
      all: discriminate. }
    split; [| split].
    + split; [discriminate |].
      intros [H | [q [Hq H]]]; [discriminate |].
      inversion Hq; subst q. destruct H as [H | [i [Hi Hout]]].
      * contradiction.
      * rewrite Forall_forall in Hall. exfalso. apply Hout, Hall, Hi.
    + discriminate.
    + intros p' Hp'. inversion Hp'; subst. exists p.
      destruct (py_index_all_accepts _ _ Hall) as [xs' [E Hxs]].
      rewrite Eall in E. inversion E; subst xs'.
      repeat split; auto. apply dict_get_set_same.
  - split; [| split; [auto | discriminate]].
    split; auto. intros _. right. exists p. split; auto. right.
    now apply py_index_all_refuses.
Qed.

(** ** Ties between formats, and the branch that is never left *)




(** ** How many recent playlists *)

(** The number of playlists [get_recent_playlists] returns: for a limit
    that is not negative, the limit or the number of playlists in the store,
    whichever is smaller; for a negative limit, the number of playlists in
    the store less the size of the limit, and none when that is negative.
    Each playlist returned is in the store. *)
Theorem recent_playlists_count (st : store) (limit : Z) :
  Z.of_nat (List.length (get_recent_playlists st limit))
  = (if 0 <=? limit
     then Z.min limit (Z.of_nat (List.length (get_all_playlists st)))
     else Z.max 0 (Z.of_nat (List.length (get_all_playlists st)) + limit))
  /\ forall p, In p (get_recent_playlists st limit) ->
               In p (get_all_playlists st).
Proof.
  unfold get_recent_playlists, py_slice_to, get_all_playlists.
  pose proof (Permutation_length (sort_desc_perm (dict_values st))) as Hlen.
  split.
  - destruct (0 <=? limit) eqn:E; rewrite length_firstn, Hlen; lia.
  - intros p Hp.
    apply (Permutation_in _ (sort_desc_perm (dict_values st))).
    destruct (0 <=? limit); now apply in_firstn in Hp.
Qed.

(** ** Creating several playlists *)

Lemma create_all_app (st : store) (calls : list creation) (c : creation) :
  create_all st (calls ++ [c])
  = fst (create_playlist (create_all st calls) (c_id c) (c_name c)
           (c_description c) (c_now_created c) (c_now_updated c)).
Proof.
  unfold create_all. now rewrite fold_left_app.
Qed.

(** Creating playlists under ids that are pairwise distinct and not in the
    store adds exactly these playlists, in the order of creation, behind the
    ones the store had; so [n] creations make [get_all_playlists] longer by
    [n], and each playlist created is found under its id. *)
Theorem create_all_appends (st : store) (calls : list creation) :
  NoDup (map c_id calls) ->
  (forall c, In c calls -> dict_get st (c_id c) = None) ->
  get_all_playlists (create_all st calls)
  = (get_all_playlists st ++ map created calls)%list
  /\ List.length (get_all_playlists (create_all st calls))
     = (List.length (get_all_playlists st) + List.length calls)%nat
  /\ (forall c, In c calls ->
        dict_get (create_all st calls) (c_id c) = Some (created c)).
Proof.
  intros Hnd Hnew.
  assert (H : get_all_playlists (create_all st calls)
              = (get_all_playlists st ++ map created calls)%list
              /\ (forall c, In c calls ->
                    dict_get (create_all st calls) (c_id c) = Some (created c))
              /\ (forall k, ~ In k (map c_id calls) ->
                    dict_get (create_all st calls) k = dict_get st k)).
  { revert Hnd Hnew. induction calls as [| c calls IH] using rev_ind;
      intros Hnd Hnew.
    - simpl. rewrite app_nil_r. repeat split; auto. intros c [].
    - rewrite map_app in Hnd. simpl in Hnd.
      assert (Hnd' : NoDup (map c_id calls)) by now apply NoDup_app_remove_r in Hnd.
      assert (Hc : ~ In (c_id c) (map c_id calls)).
      { apply NoDup_rev in Hnd. rewrite rev_app_distr in Hnd. simpl in Hnd.
        inversion Hnd; subst. now rewrite <- in_rev in *. }
      destruct (IH Hnd') as [Hall [Hfound Hrest]].
      { intros c' Hc'. apply Hnew. apply in_or_app. now left. }
      assert (Hfresh : dict_get (create_all st calls) (c_id c) = None).
      { rewrite (Hrest _ Hc). apply Hnew. apply in_or_app. right. now left. }
      rewrite create_all_app. unfold create_playlist. cbn [fst].
      fold (created c).
      split; [| split].
      + unfold get_all_playlists, dict_values in *.
        rewrite (dict_set_new_key _ _ _ Hfresh), !map_app, Hall. simpl.
        now rewrite app_assoc.
      + intros c' Hc'. apply in_app_or in Hc'. destruct Hc' as [Hc' | [<- | []]].
        * rewrite dict_get_set_other; auto.
          intros E. apply Hc. rewrite <- E. now apply in_map.
        * apply dict_get_set_same.
      + intros k Hk. rewrite map_app in Hk. simpl in Hk.
        rewrite dict_get_set_other by (intros E; apply Hk, in_or_app; right; now left).
        apply Hrest. intros Hin. apply Hk, in_or_app. now left. }
  destruct H as [Hall [Hfound _]].
  split; [exact Hall | split; [| exact Hfound]].
  rewrite Hall, length_app, length_map. reflexivity.
Qed.

Lemma create_all_appends_witness :
  List.length (get_all_playlists (create_all [("p1", playlist_a)] two_calls))
  = 3%nat.
Proof.
  destruct (create_all_appends [("p1", playlist_a)] two_calls) as [_ [H _]].
  - simpl. constructor; [| constructor; [| constructor]];
      simpl; intuition discriminate.
  - intros c [<- | [<- | []]]; reflexivity.
  - exact H.
Defined.

Lemma run_ops_consistent_witness :
  exists p',
    dict_get (run_ops ascii_int fresh_store "p1" plain_run) "p1" = Some p'
    /\ duration_consistent ascii_int p' /\ 0 <= pl_total_duration p'.
Proof.
  apply (run_ops_consistent ascii_int plain_run fresh_store "p1"
           (snd (create_playlist [] "p1" "Mix" (Some "")
                   "2024-01-01T10:00:00" "2024-01-01T10:00:00.000007"))).
  - reflexivity.
  - reflexivity.
  - constructor.
  - repeat constructor; vm_compute; discriminate.
Defined.
